(** * Chisel GUI Manager: the connection supervisor of [chisel_gui_manager.py]

    A shallow embedding of the parts of [chisel_gui_manager.py] that hold
    state: the configuration file ([load_config], [save_config]), the list of
    connections and the single supervised [chisel client] process of
    [MainWindow].  Qt widgets are reduced to what the program reads back from
    them (the enabled flags of the per-row buttons, the text of the status
    label); the operating system is reduced to a table of processes and a
    finite map of files. *)

From Stdlib Require Import ZArith NArith List String Ascii Bool Lia DecimalString.
From Stdlib Require Import DecimalPos.
From stdpp Require Import base option list gmap strings.

Open Scope Z_scope.

(** ** Python strings *)

(** A Python [str] is a sequence of Unicode code points. *)
Definition pystr := list N.

(** The [str] denoted by an ASCII literal. *)
Definition py (s : string) : pystr :=
  map (fun a => N_of_ascii a) (list_ascii_of_string s).

(** Same, with every apostrophe of the literal standing for a double quote
    (code point 34). *)
Definition pyq (s : string) : pystr :=
  map (fun c => if (c =? 39)%N then 34%N else c) (py s).

Module Str.

(** [str.isspace] on one code point: the characters on which
    [str.split()] without argument separates. *)
Definition isspace (c : N) : bool :=
  ((9 <=? c) && (c <=? 13) || (28 <=? c) && (c <=? 32)
   || (c =? 133) || (c =? 160) || (c =? 5760)
   || (8192 <=? c) && (c <=? 8202) || (c =? 8232) || (c =? 8233)
   || (c =? 8239) || (c =? 8287) || (c =? 12288))%N.

(** [cur] is the token being read, in order. *)
Fixpoint split_go (cur : pystr) (s : pystr) : list pystr :=
  match s with
  | [] => match cur with [] => [] | _ => [cur] end
  | c :: r =>
      if isspace c
      then match cur with [] => split_go [] r | _ => cur :: split_go [] r end
      else split_go (cur ++ [c]) r
  end.

(** [s.split()] *)
Definition split (s : pystr) : list pystr := split_go [] s.

(** No white space in [w]. *)
Definition nospace (w : pystr) : Prop :=
  Forall (fun c => isspace c = false) w.

(** A word: not empty, no white space in it. *)
Definition word (w : pystr) : Prop := w <> [] /\ nospace w.

End Str.

(** ** The [json] module *)

Module Json.

(** What [json.load] returns and [json.dump] accepts.  A number with a
    fraction or an exponent, and the constants [NaN], [Infinity] and
    [-Infinity], are carried as their literal ([JFloat]): their floating
    point value is not modelled.  An object is a Python [dict]: keys are
    unique and keep the order of their first insertion. *)
#[warnings="-register-all"] Inductive json :=
| JNull
| JBool (b : bool)
| JInt (z : Z)
| JFloat (literal : pystr)
| JStr (s : pystr)
| JArr (items : list json)
| JObj (members : list (pystr * json)).

(** [d[k] = v] on a [dict]. *)
Fixpoint dict_set (k : pystr) (v : json) (d : list (pystr * json))
  : list (pystr * json) :=
  match d with
  | [] => [(k, v)]
  | (k', v') :: d' =>
      if decide (k' = k) then (k, v) :: d' else (k', v') :: dict_set k v d'
  end.

(** *** Encoder: [json.dumps(obj, indent=4)] *)

Definition hexdigit (n : N) : N :=
  (if n <? 10 then 48 + n else 87 + n)%N.

(** ['{0:04x}'.format(n)] for [n < 65536] *)
Definition hex4 (n : N) : pystr :=
  [hexdigit (N.land (N.shiftr n 12) 15); hexdigit (N.land (N.shiftr n 8) 15);
   hexdigit (N.land (N.shiftr n 4) 15); hexdigit (N.land n 15)].

(** The replacement of one character in [encode_basestring_ascii]. *)
Definition escape_char (c : N) : pystr :=
  (if c =? 34 then [92; 34]
   else if c =? 92 then [92; 92]
   else if c =? 10 then [92; 110]
   else if c =? 13 then [92; 114]
   else if c =? 9 then [92; 116]
   else if c =? 8 then [92; 98]
   else if c =? 12 then [92; 102]
   else if (32 <=? c) && (c <=? 126) then [c]
   else if c <? 65536 then [92; 117] ++ hex4 c
   else
     let v := c - 65536 in
     [92; 117] ++ hex4 (N.lor 55296 (N.land (N.shiftr v 10) 1023)) ++
     [92; 117] ++ hex4 (N.lor 56320 (N.land v 1023)))%N.

Definition encode_str (s : pystr) : pystr :=
  [34%N] ++ flat_map escape_char s ++ [34%N].

Definition encode_int (z : Z) : pystr :=
  py (NilZero.string_of_int (Z.to_int z)).

(** A line break followed by [level] indentation steps of four spaces. *)
Definition newline_indent (level : nat) : pystr :=
  10%N :: concat (repeat (py "    ") level).

(** Items separated by [","] and a line break at [level]. *)
Fixpoint join_items (level : nat) (items : list pystr) : pystr :=
  match items with
  | [] => []
  | [x] => x
  | x :: rest => x ++ [44%N] ++ newline_indent level ++ join_items level rest
  end.

Fixpoint encode (level : nat) (j : json) : pystr :=
  match j with
  | JNull => py "null"
  | JBool true => py "true"
  | JBool false => py "false"
  | JInt z => encode_int z
  | JFloat literal => literal
  | JStr s => encode_str s
  | JArr [] => py "[]"
  | JArr items =>
      py "[" ++ newline_indent (S level)
      ++ join_items (S level) (map (encode (S level)) items)
      ++ newline_indent level ++ py "]"
  | JObj [] => py "{}"
  | JObj members =>
      py "{" ++ newline_indent (S level)
      ++ join_items (S level)
           (map (fun kv => match kv with
                           | (k, v) => encode_str k ++ py ": " ++ encode (S level) v
                           end) members)
      ++ newline_indent level ++ py "}"
  end.

Definition dumps (j : json) : pystr := encode 0 j.

(** *** Decoder: [json.loads(s)]

    The text is cut into tokens, then the tokens are assembled with a
    stack of the containers still open.  Every way of failing is the one
    [JSONDecodeError] of the module, here [None]. *)

Inductive token :=
| TLBrace | TRBrace | TLBracket | TRBracket | TComma | TColon
| TScalar (j : json).

Definition is_ws (c : N) : bool :=
  ((c =? 32) || (c =? 9) || (c =? 10) || (c =? 13))%N.

Definition is_digit (c : N) : bool := ((48 <=? c) && (c <=? 57))%N.

Definition hexval (c : N) : option N :=
  (if (48 <=? c) && (c <=? 57) then Some (c - 48)
   else if (97 <=? c) && (c <=? 102) then Some (c - 87)
   else if (65 <=? c) && (c <=? 70) then Some (c - 55)
   else None)%N.

Definition unhex4 (a b c d : N) : option N :=
  match hexval a, hexval b, hexval c, hexval d with
  | Some a, Some b, Some c, Some d => Some (((a * 16 + b) * 16 + c) * 16 + d)%N
  | _, _, _, _ => None
  end.

Definition unescape (e : N) : option N :=
  (if e =? 34 then Some 34 else if e =? 92 then Some 92
   else if e =? 47 then Some 47 else if e =? 98 then Some 8
   else if e =? 102 then Some 12 else if e =? 110 then Some 10
   else if e =? 114 then Some 13 else if e =? 116 then Some 9
   else None)%N.

Definition is_high_surrogate (u : N) : bool := ((55296 <=? u) && (u <=? 56319))%N.
Definition is_low_surrogate (u : N) : bool := ((56320 <=? u) && (u <=? 57343))%N.
Definition join_surrogates (hi lo : N) : N :=
  (65536 + N.lor (N.shiftl (hi - 55296) 10) (lo - 56320))%N.

(** One more character [c], read from [n] characters of text. *)
Definition scanned (c : N) (n : nat) (r : option (pystr * nat))
  : option (pystr * nat) :=
  match r with
  | Some (s, m) => Some (c :: s, (n + m)%nat)
  | None => None
  end.

(** [scanstring] behind the opening quote, in strict mode: the decoded
    string and the number of characters read, closing quote included. *)
Fixpoint scanstring (s : pystr) : option (pystr * nat) :=
  match s with
  | [] => None
  | c :: r =>
      if (c =? 34)%N then Some ([], 1%nat)
      else if (c <? 32)%N then None
      else if negb (c =? 92)%N then scanned c 1 (scanstring r)
      else
        match r with
        | [] => None
        | e :: r1 =>
            if negb (e =? 117)%N then
              match unescape e with
              | Some c' => scanned c' 2 (scanstring r1)
              | None => None
              end
            else
              match r1 with
              | h1 :: h2 :: h3 :: h4 :: r2 =>
                  match unhex4 h1 h2 h3 h4 with
                  | None => None
                  | Some uni =>
                      match r2 with
                      | b :: u :: l1 :: l2 :: l3 :: l4 :: r3 =>
                          match unhex4 l1 l2 l3 l4 with
                          | Some uni2 =>
                              if is_high_surrogate uni && (b =? 92)%N
                                 && (u =? 117)%N && is_low_surrogate uni2
                              then scanned (join_surrogates uni uni2) 12
                                     (scanstring r3)
                              else scanned uni 6 (scanstring r2)
                          | None => scanned uni 6 (scanstring r2)
                          end
                      | _ => scanned uni 6 (scanstring r2)
                      end
                  end
              | _ => None
              end
        end
  end.

(** The longest prefix of digits, and what follows it. *)
Fixpoint take_digits (s : pystr) : pystr * pystr :=
  match s with
  | c :: r =>
      if is_digit c
      then match take_digits r with (d, r') => (c :: d, r') end
      else ([], s)
  | [] => ([], [])
  end.

Definition digits_value (d : pystr) : Z :=
  fold_left (fun acc c => acc * 10 + (Z.of_N c - 48)) d 0.

(** The number at the head of [s], by the module's pattern: an optional
    minus sign; a zero, or a digit other than zero and any digits; then, if
    complete, a point and one digit or more; then, if complete, an [e] or
    [E], an optional sign and one digit or more.  Its value and its
    length. *)
Definition scan_number (s : pystr) : option (json * nat) :=
  let '(sign, s1) :=
    match s with
    | c :: r => if (c =? 45)%N then ([45%N], r) else ([], s)
    | [] => ([], s)
    end in
  match s1 with
  | [] => None
  | c :: r1 =>
      if negb (is_digit c) then None
      else
        let '(int_part, s2) :=
          if (c =? 48)%N then ([c], r1)
          else match take_digits r1 with (d, r') => (c :: d, r') end in
        let '(frac, s3) :=
          match s2 with
          | p :: r2 =>
              if (p =? 46)%N
              then match take_digits r2 with
                   | ([], _) => ([], s2)
                   | (d, r') => (p :: d, r')
                   end
              else ([], s2)
          | [] => ([], s2)
          end in
        let exp :=
          match s3 with
          | e :: r3 =>
              if ((e =? 101) || (e =? 69))%N then
                let '(esign, r4) :=
                  match r3 with
                  | g :: r' =>
                      if ((g =? 43) || (g =? 45))%N then ([g], r') else ([], r3)
                  | [] => ([], r3)
                  end in
                match take_digits r4 with
                | ([], _) => []
                | (d, _) => e :: esign ++ d
                end
              else []
          | [] => []
          end in
        let literal := sign ++ int_part ++ frac ++ exp in
        match frac, exp with
        | [], [] =>
            let v := digits_value int_part in
            Some (JInt (match sign with [] => v | _ => - v end),
                  length literal)
        | _, _ => Some (JFloat literal, length literal)
        end
  end.

Fixpoint starts_with (p s : pystr) : bool :=
  match p, s with
  | [], _ => true
  | a :: p', b :: s' => (a =? b)%N && starts_with p' s'
  | _ :: _, [] => false
  end.

Definition keyword (w : string) (j : json) (s : pystr) : option (token * nat) :=
  if starts_with (py w) s then Some (TScalar j, length (py w)) else None.

(** The token at the head of [s], which starts with [c] and is not white
    space, and its length. *)
Definition scan_token (c : N) (r : pystr) : option (token * nat) :=
  let s := c :: r in
  (if c =? 123 then Some (TLBrace, 1%nat)
   else if c =? 125 then Some (TRBrace, 1%nat)
   else if c =? 91 then Some (TLBracket, 1%nat)
   else if c =? 93 then Some (TRBracket, 1%nat)
   else if c =? 44 then Some (TComma, 1%nat)
   else if c =? 58 then Some (TColon, 1%nat)
   else if c =? 34 then
     match scanstring r with
     | Some (str, n) => Some (TScalar (JStr str), S n)
     | None => None
     end
   else if c =? 110 then keyword "null" JNull s
   else if c =? 116 then keyword "true" (JBool true) s
   else if c =? 102 then keyword "false" (JBool false) s
   else if c =? 78 then keyword "NaN" (JFloat (py "NaN")) s
   else if c =? 73 then keyword "Infinity" (JFloat (py "Infinity")) s
   else if starts_with (py "-I") s
   then keyword "-Infinity" (JFloat (py "-Infinity")) s
   else
     match scan_number s with
     | Some (j, n) => Some (TScalar j, n)
     | None => None
     end)%N.

(** [skip] characters still belong to the token read last. *)
Fixpoint lex (skip : nat) (s : pystr) : option (list token) :=
  match s with
  | [] => Some []
  | c :: r =>
      match skip with
      | S k => lex k r
      | O =>
          if is_ws c then lex 0 r
          else
            match scan_token c r with
            | Some (t, n) =>
                match lex (pred n) r with
                | Some ts => Some (t :: ts)
                | None => None
                end
            | None => None
            end
      end
  end.

(** A container still open: an array with its items so far (last one
    first), or an object with its members so far and the key whose value
    is being read. *)
Inductive frame :=
| FArr (items : list json)
| FObj (members : list (pystr * json)) (key : option pystr).

Inductive expect :=
| XValue          (* at the top, after a colon, after a comma of an array *)
| XValueOrClose   (* after an opening bracket *)
| XKeyOrClose     (* after an opening brace *)
| XKey            (* after a comma of an object *)
| XColon
| XCommaOrClose   (* after a value inside a container *)
| XEnd (j : json). (* the document is complete *)

Definition push_value (v : json) (stack : list frame)
  : option (list frame * expect) :=
  match stack with
  | [] => Some ([], XEnd v)
  | FArr items :: st => Some (FArr (v :: items) :: st, XCommaOrClose)
  | FObj ms (Some k) :: st => Some (FObj (dict_set k v ms) None :: st, XCommaOrClose)
  | FObj _ None :: _ => None
  end.

Definition open_value (t : token) (stack : list frame)
  : option (list frame * expect) :=
  match t with
  | TScalar v => push_value v stack
  | TLBracket => Some (FArr [] :: stack, XValueOrClose)
  | TLBrace => Some (FObj [] None :: stack, XKeyOrClose)
  | _ => None
  end.

Definition open_key (t : token) (stack : list frame)
  : option (list frame * expect) :=
  match t, stack with
  | TScalar (JStr k), FObj ms None :: st => Some (FObj ms (Some k) :: st, XColon)
  | _, _ => None
  end.

Definition parse_step (t : token) (st : list frame * expect)
  : option (list frame * expect) :=
  let '(stack, x) := st in
  match x with
  | XValue => open_value t stack
  | XValueOrClose =>
      match t, stack with
      | TRBracket, FArr items :: st' => push_value (JArr (rev items)) st'
      | _, _ => open_value t stack
      end
  | XKeyOrClose =>
      match t, stack with
      | TRBrace, FObj ms None :: st' => push_value (JObj ms) st'
      | _, _ => open_key t stack
      end
  | XKey => open_key t stack
  | XColon => match t with TColon => Some (stack, XValue) | _ => None end
  | XCommaOrClose =>
      match t, stack with
      | TComma, FArr _ :: _ => Some (stack, XValue)
      | TRBracket, FArr items :: st' => push_value (JArr (rev items)) st'
      | TComma, FObj _ None :: _ => Some (stack, XKey)
      | TRBrace, FObj ms None :: st' => push_value (JObj ms) st'
      | _, _ => None
      end
  | XEnd _ => None
  end.

Fixpoint parse (ts : list token) (st : list frame * expect) : option json :=
  match ts with
  | [] => match st with ([], XEnd j) => Some j | _ => None end
  | t :: ts' =>
      match parse_step t st with
      | Some st' => parse ts' st'
      | None => None
      end
  end.

Definition loads (s : pystr) : option json :=
  match lex 0 s with
  | Some ts => parse ts ([], XValue)
  | None => None
  end.

End Json.

Export Json.

(** ** Exceptions and the state of the program *)

Inductive exn :=
| IndexError        (* a list indexed out of range *)
| JSONDecodeError   (* raised by [json.load] *)
| OSError.          (* raised by [subprocess.Popen]: no binary, no permission, ... *)

(** [class Connection] *)
Record Connection := mkConnection {
  name : pystr;
  url : pystr;
  arguments : pystr
}.

(** [Connection.to_dict] *)
Definition to_dict (c : Connection) : json :=
  JObj [(py "name", JStr (name c)); (py "url", JStr (url c));
        (py "arguments", JStr (arguments c))].

(** A [subprocess.Popen] object is named by the position of its process in
    the table of processes. *)
Definition pid := nat.

(** What the program does to the outside, in order. *)
Inductive event :=
| EPopen (cmd : list pystr) (child : option pid)  (* [None]: [Popen] raised *)
| EPoll (p : pid) (running : bool)
| ETerminate (p : pid)
| EWait (p : pid)
| EOpenW (path : string)                         (* [open(path, "w")] *)
| EWrite (path : string) (text : pystr)
| ECritical.                                     (* [QMessageBox.critical] *)

(** The text of [connection_status_label]. *)
Inductive status :=
| NotConnected
| ConnectedTo (conn_name : pystr).

(** The attributes of [MainWindow] the program reads back, then the
    environment: [procs] tells for each process started so far whether it
    still runs, [popen_ok] whether a [Popen] would succeed now, [files] is
    the file system. *)
Record App := mkApp {
  connections : list Connection;
  settings_data : json;
  config_data : json;
  active_process : option pid;
  active_connection_index : option Z;
  connection_buttons : list (bool * bool);   (* (Connect, Disconnect) enabled *)
  connection_status_label : status;
  procs : list bool;
  popen_ok : bool;
  files : gmap string pystr;
  trace : list event
}.

Definition set_connections (v : list Connection) (st : App) : App :=
  mkApp v (settings_data st) (config_data st) (active_process st)
    (active_connection_index st) (connection_buttons st)
    (connection_status_label st) (procs st) (popen_ok st) (files st) (trace st).

Definition set_config_data (v : json) (st : App) : App :=
  mkApp (connections st) (settings_data st) v (active_process st)
    (active_connection_index st) (connection_buttons st)
    (connection_status_label st) (procs st) (popen_ok st) (files st) (trace st).

Definition set_active_process (v : option pid) (st : App) : App :=
  mkApp (connections st) (settings_data st) (config_data st) v
    (active_connection_index st) (connection_buttons st)
    (connection_status_label st) (procs st) (popen_ok st) (files st) (trace st).

Definition set_active_connection_index (v : option Z) (st : App) : App :=
  mkApp (connections st) (settings_data st) (config_data st) (active_process st)
    v (connection_buttons st)
    (connection_status_label st) (procs st) (popen_ok st) (files st) (trace st).

Definition set_connection_buttons (v : list (bool * bool)) (st : App) : App :=
  mkApp (connections st) (settings_data st) (config_data st) (active_process st)
    (active_connection_index st) v
    (connection_status_label st) (procs st) (popen_ok st) (files st) (trace st).

Definition set_connection_status_label (v : status) (st : App) : App :=
  mkApp (connections st) (settings_data st) (config_data st) (active_process st)
    (active_connection_index st) (connection_buttons st)
    v (procs st) (popen_ok st) (files st) (trace st).

Definition set_procs (v : list bool) (st : App) : App :=
  mkApp (connections st) (settings_data st) (config_data st) (active_process st)
    (active_connection_index st) (connection_buttons st)
    (connection_status_label st) v (popen_ok st) (files st) (trace st).

Definition set_popen_ok (v : bool) (st : App) : App :=
  mkApp (connections st) (settings_data st) (config_data st) (active_process st)
    (active_connection_index st) (connection_buttons st)
    (connection_status_label st) (procs st) v (files st) (trace st).

Definition set_files (v : gmap string pystr) (st : App) : App :=
  mkApp (connections st) (settings_data st) (config_data st) (active_process st)
    (active_connection_index st) (connection_buttons st)
    (connection_status_label st) (procs st) (popen_ok st) v (trace st).

Definition log (e : event) (st : App) : App :=
  mkApp (connections st) (settings_data st) (config_data st) (active_process st)
    (active_connection_index st) (connection_buttons st)
    (connection_status_label st) (procs st) (popen_ok st) (files st)
    (trace st ++ [e]).

(** ** Statements with state and exceptions *)

Inductive outcome (A : Type) :=
| Return (a : A)
| Raise (e : exn).
Arguments Return {A} a.
Arguments Raise {A} e.

(** A statement runs from a state to an outcome and a state; what it did
    before raising stays done. *)
Definition M (A : Type) : Type := App -> outcome A * App.

Definition ret {A} (a : A) : M A := fun st => (Return a, st).

Definition bind {A B} (m : M A) (k : A -> M B) : M B :=
  fun st =>
    match m st with
    | (Return a, st') => k a st'
    | (Raise e, st') => (Raise e, st')
    end.

Definition raise {A} (e : exn) : M A := fun st => (Raise e, st).

(** [try: body / except Exception as e: handler] *)
Definition try_except {A} (body : M A) (handler : exn -> M A) : M A :=
  fun st =>
    match body st with
    | (Return a, st') => (Return a, st')
    | (Raise e, st') => handler e st'
    end.

Definition gets {A} (f : App -> A) : M A := fun st => (Return (f st), st).

Definition modify (f : App -> App) : M unit := fun st => (Return tt, f st).

Notation "x <- m ;; k" := (bind m (fun x => k))
  (at level 20, m at level 99, k at level 200, only parsing).
Notation "m ;; k" := (bind m (fun _ => k))
  (at level 100, k at level 200, right associativity, only parsing).

(** [if b: body] *)
Definition when (b : bool) (body : M unit) : M unit :=
  if b then body else ret tt.

(** Statements one after the other. *)
Fixpoint seq_ (steps : list (M unit)) : M unit :=
  match steps with
  | [] => ret tt
  | s :: rest => s ;; seq_ rest
  end.

(** The state a statement leaves, whatever its outcome. *)
Definition exec {A} (m : M A) (st : App) : App := snd (m st).

(** ** Lists as Python has them *)

(** [l[i]]: a negative index counts from the end. *)
Definition py_index {A} (l : list A) (i : Z) : option A :=
  if bool_decide (0 <= i) then l !! Z.to_nat i
  else if bool_decide (- Z.of_nat (length l) <= i)
       then l !! Z.to_nat (Z.of_nat (length l) + i)
       else None.

Definition getitem {A} (l : list A) (i : Z) : M A :=
  match py_index l i with
  | Some x => ret x
  | None => raise IndexError
  end.

(** ** Processes *)

(** [p.poll() is None]: does the process still run? *)
Definition poll (p : pid) : M bool :=
  running <- gets (fun st => bool_decide (procs st !! p = Some true)) ;;
  modify (log (EPoll p running)) ;;
  ret running.

(** [p.terminate()]: the termination signal is sent. *)
Definition terminate (p : pid) : M unit := modify (log (ETerminate p)).

(** [p.wait()] returns once the process has exited.  The program sets no
    bound on this wait; it is taken to return. *)
Definition wait (p : pid) : M unit :=
  modify (fun st => set_procs (<[p := false]> (procs st)) st) ;;
  modify (log (EWait p)).

(** [subprocess.Popen(cmd, ...)]: a new running process, or an exception. *)
Definition Popen (cmd : list pystr) : M pid :=
  ok <- gets popen_ok ;;
  if ok then
    p <- gets (fun st => length (procs st)) ;;
    modify (fun st => set_procs (procs st ++ [true]) st) ;;
    modify (log (EPopen cmd (Some p))) ;;
    ret p
  else
    modify (log (EPopen cmd None)) ;;
    raise OSError.

(** ** The configuration file *)

Definition CONFIG_FILE : string := "config.json".

(** [open(path, "w")] creates the file or empties it.  Opening and writing
    are taken to succeed. *)
Definition open_w (path : string) : M unit :=
  modify (fun st => set_files (<[path := []]> (files st)) st) ;;
  modify (log (EOpenW path)).

(** The text written reaches the file, after what the file holds. *)
Definition write (path : string) (text : pystr) : M unit :=
  modify (fun st =>
    set_files (<[path := default [] (files st !! path) ++ text]> (files st)) st) ;;
  modify (log (EWrite path text)).

Definition default_config : json :=
  JObj [(py "connections", JArr []);
        (py "settings", JObj [(py "startup", JStr (py "When logged in"));
                              (py "shutoff", JStr (py "On log off"))])].

(** [load_config()] *)
Definition load_config : M json :=
  content <- gets (fun st => files st !! CONFIG_FILE) ;;
  match content with
  | None => ret default_config
  | Some text =>
      match loads text with
      | Some data => ret data
      | None => raise JSONDecodeError
      end
  end.

(** The statements of [save_config(config_data)], in order. *)
Definition save_config_steps (data : json) : list (M unit) :=
  [open_w CONFIG_FILE; write CONFIG_FILE (dumps data)].

(** [save_config(config_data)] *)
Definition save_config (data : json) : M unit :=
  seq_ (save_config_steps data).

(** ** [class MainWindow] *)

(** [MainWindow.save_all] *)
Definition save_all : M unit :=
  conns <- gets connections ;;
  settings <- gets settings_data ;;
  let data := JObj [(py "connections", JArr (map to_dict conns));
                    (py "settings", settings)] in
  save_config data ;;
  modify (set_config_data data).

(** The flags [update_buttons_state] gives to the buttons of row [i]. *)
Definition row_flags (active : option Z) (i : nat) : bool * bool :=
  match active with
  | None => (true, false)
  | Some a => if bool_decide (Z.of_nat i = a) then (false, true) else (true, false)
  end.

(** [MainWindow.update_buttons_state] *)
Definition update_buttons_state : M unit :=
  active <- gets active_connection_index ;;
  modify (fun st =>
    set_connection_buttons
      (imap (fun i _ => row_flags active i) (connection_buttons st)) st).

(** [MainWindow.render_connections]: one new pair of buttons per
    connection, Connect enabled and Disconnect disabled, then
    [update_buttons_state]. *)
Definition render_connections : M unit :=
  modify (set_connection_buttons []) ;;
  conns <- gets connections ;;
  modify (set_connection_buttons (map (fun _ => (true, false)) conns)) ;;
  update_buttons_state.

(** [MainWindow.delete_connection] *)
Definition delete_connection (index : Z) : M unit :=
  conns <- gets connections ;;
  when (bool_decide (0 <= index < Z.of_nat (length conns)))
    (modify (set_connections (delete (Z.to_nat index) conns)) ;;
     save_all ;;
     render_connections).

(** [MainWindow.stop_chisel_process] (the [print] is left out) *)
Definition stop_chisel_process : M unit :=
  proc <- gets active_process ;;
  match proc with
  | Some p =>
      running <- poll p ;;
      when running (terminate p ;; wait p)
  | None => ret tt
  end ;;
  modify (set_active_process None).

(** The command line of [start_chisel]. *)
Definition chisel_cmd (conn : Connection) : list pystr :=
  [py "chisel"; py "client"; url conn] ++ Str.split (arguments conn).

(** [MainWindow.start_chisel].  The [print] is left out.  The message box
    is modal: a timer slot that runs while it is shown finds no process and
    only rewrites the status label. *)
Definition start_chisel (conn : Connection) : M unit :=
  let cmd := chisel_cmd conn in
  try_except
    (p <- Popen cmd ;;
     modify (set_active_process (Some p)))
    (fun _ =>
       modify (log ECritical) ;;
       modify (set_active_process None) ;;
       modify (set_active_connection_index None)).

(** First statement of [connect_connection]: stop any running process if
    different from this one. *)
Definition connect_stop_other (index : Z) : M unit :=
  active <- gets active_connection_index ;;
  when (bool_decide (active <> None) && bool_decide (active <> Some index))
    (stop_chisel_process ;;
     modify (set_active_connection_index None)).

(** Second statement of [connect_connection]: start the process for this
    index unless it is the active one. *)
Definition connect_start (index : Z) : M unit :=
  active <- gets active_connection_index ;;
  when (bool_decide (active <> Some index))
    (modify (set_active_connection_index (Some index)) ;;
     conns <- gets connections ;;
     conn <- getitem conns index ;;
     start_chisel conn).

(** [MainWindow.connect_connection] *)
Definition connect_connection (index : Z) : M unit :=
  connect_stop_other index ;;
  connect_start index ;;
  update_buttons_state.

(** [MainWindow.disconnect_connection] *)
Definition disconnect_connection (index : Z) : M unit :=
  active <- gets active_connection_index ;;
  when (bool_decide (active = Some index))
    (stop_chisel_process ;;
     modify (set_active_connection_index None) ;;
     update_buttons_state).

(** [MainWindow.update_connection_status], the slot of the one-second
    timer.  The inner block tells whether the method has returned. *)
Definition update_connection_status : M unit :=
  active <- gets active_connection_index ;;
  proc <- gets active_process ;;
  returned <-
    match active, proc with
    | Some i, Some p =>
        running <- poll p ;;
        if running then
          conns <- gets connections ;;
          conn <- getitem conns i ;;
          modify (set_connection_status_label (ConnectedTo (name conn))) ;;
          ret true
        else
          stop_chisel_process ;;
          modify (set_active_connection_index None) ;;
          update_buttons_state ;;
          ret false
    | _, _ => ret false
    end ;;
  when (negb returned)
    (modify (set_connection_status_label NotConnected)).

(** [MainWindow.add_connection_dialog], for the dialog closed with Save on
    [conn], or cancelled ([None]). *)
Definition add_connection_dialog (result : option Connection) : M unit :=
  match result with
  | Some conn =>
      modify (fun st => set_connections (connections st ++ [conn]) st) ;;
      save_all ;;
      render_connections
  | None => ret tt
  end.

(** How the dialog of a row is closed. *)
Inductive dialog_result :=
| DlgSave (edited : Connection)
| DlgDelete
| DlgCancel.

(** The position of [l[i]] in [l]. *)
Definition py_position {A} (l : list A) (i : Z) : nat :=
  if bool_decide (0 <= i) then Z.to_nat i else Z.to_nat (Z.of_nat (length l) + i).

(** [MainWindow.open_connection_settings]: Save writes the fields into the
    connection object of the list, Delete calls back
    [delete_connection(index)] and rejects. *)
Definition open_connection_settings (index : Z) (result : dialog_result) : M unit :=
  conns <- gets connections ;;
  _ <- getitem conns index ;;
  match result with
  | DlgSave edited =>
      modify (set_connections (<[py_position conns index := edited]> conns)) ;;
      save_all ;;
      render_connections
  | DlgDelete => delete_connection index
  | DlgCancel => ret tt
  end.

(** The window as [MainWindow.__init__] leaves it, for the connections and
    settings found in the configuration: no process, no active connection,
    the rows rendered, the label on Not Connected. *)
Definition MainWindow_init (conns : list Connection) (settings cfg : json)
    (ok : bool) (fs : gmap string pystr) : App :=
  exec render_connections
    (mkApp conns settings cfg None None [] NotConnected [] ok fs []).

(** ** What happens to a window *)

(** The user's clicks and the timer. *)
Inductive command :=
| Connect (index : Z)
| Disconnect (index : Z)
| Delete (index : Z)
| Add (result : option Connection)
| Settings (index : Z) (result : dialog_result)
| Tick.

Definition run (c : command) : M unit :=
  match c with
  | Connect i => connect_connection i
  | Disconnect i => disconnect_connection i
  | Delete i => delete_connection i
  | Add r => add_connection_dialog r
  | Settings i r => open_connection_settings i r
  | Tick => update_connection_status
  end.

(** Row [i] is rendered: its buttons exist. *)
Definition row_exists (i : Z) (st : App) : Prop :=
  0 <= i < Z.of_nat (length (connection_buttons st)).

(** A Connect button is clicked on a row that is rendered; the other
    commands are taken with any argument. *)
Definition clickable (c : command) (st : App) : Prop :=
  match c with
  | Connect i => row_exists i st
  | _ => True
  end.

(** One step: a command of the user or the timer, a process that exits on
    its own, or a change of whether [chisel] can be started. *)
Inductive step : App -> App -> Prop :=
| step_command c st : clickable c st -> step st (exec (run c) st)
| step_exit p st : step st (set_procs (<[p := false]> (procs st)) st)
| step_popen ok st : step st (set_popen_ok ok st).

Inductive reachable : App -> Prop :=
| reachable_init conns settings cfg ok fs :
    reachable (MainWindow_init conns settings cfg ok fs)
| reachable_step st st' : reachable st -> step st st' -> reachable st'.

(** * Views of the state

    The states the methods leave, written out, and the windows used as
    examples. *)

(** The buttons as a function of the active index and the number of rows. *)
Definition projection (active : option Z) (rows : nat) : list (bool * bool) :=
  map (row_flags active) (seq 0 rows).

(** The state after [stop_chisel_process]. *)
Definition stopped (st : App) : App :=
  set_active_process None
    match active_process st with
    | Some p =>
        if bool_decide (procs st !! p = Some true)
        then log (EWait p)
               (set_procs (<[p := false]> (procs st))
                  (log (ETerminate p) (log (EPoll p true) st)))
        else log (EPoll p false) st
    | None => st
    end.

(** The state after [start_chisel]. *)
Definition started (conn : Connection) (st : App) : App :=
  if popen_ok st
  then set_active_process (Some (length (procs st)))
         (log (EPopen (chisel_cmd conn) (Some (length (procs st))))
            (set_procs (procs st ++ [true]) st))
  else set_active_connection_index None
         (set_active_process None
            (log ECritical (log (EPopen (chisel_cmd conn) None) st))).

(** The dictionary [save_all] writes. *)
Definition saved_data (st : App) : json :=
  JObj [(py "connections", JArr (map to_dict (connections st)));
        (py "settings", settings_data st)].

(** The state after [save_all]. *)
Definition saved (st : App) : App :=
  set_config_data (saved_data st)
    (log (EWrite CONFIG_FILE (dumps (saved_data st)))
       (set_files (<[CONFIG_FILE := dumps (saved_data st)]> (files st))
          (log (EOpenW CONFIG_FILE) st))).

(** The state after a change of the list of connections: saved, rendered. *)
Definition refreshed (conns : list Connection) (st : App) : App :=
  let st1 := saved (set_connections conns st) in
  set_connection_buttons
    (projection (active_connection_index st) (length conns)) st1.

(** Nothing is active exactly when no process is held; a process that runs
    is the one held; the buttons are the projection of the active index on
    the rows of the connections. *)
Record Inv (st : App) : Prop := {
  inv_idle : active_connection_index st = None <-> active_process st = None;
  inv_live : forall p, procs st !! p = Some true -> active_process st = Some p;
  inv_buttons : connection_buttons st
                = projection (active_connection_index st) (length (connections st))
}.

(** ** Sample windows *)

Definition home : Connection :=
  mkConnection (py "home") (py "wss://h.example:9000") (py "socks").

Definition office : Connection :=
  mkConnection (py "office") (py "https://o.example") (pyq "--auth 'user name'").

(** A connection whose arguments are one quoted value of two words. *)
Definition vault : Connection :=
  mkConnection (py "vault") (py "https://v.example") (pyq "'user name'").

Definition settings0 : json :=
  JObj [(py "startup", JStr (py "When logged in"));
        (py "shutoff", JStr (py "On log off"))].

(** Two connections, no configuration file yet, [chisel] installed. *)
Definition window0 : App :=
  MainWindow_init [home; office] settings0 default_config true ∅.

(** Connect clicked on the row of [home]. *)
Definition running_home : App := exec (run (Connect 0)) window0.

(** Then the process of [home] exits on its own. *)
Definition exited_home : App :=
  set_procs (<[0%nat := false]> (procs running_home)) running_home.

(** One connection, connected. *)
Definition running_only_home : App :=
  exec (run (Connect 0))
    (MainWindow_init [home] settings0 default_config true ∅).

(** A configuration file cut short, as a write that stopped early leaves it. *)
Definition truncated_config : App :=
  set_files {[ CONFIG_FILE := pyq "{'connections': [" ]} window0.

(** A window whose configuration file holds the default configuration. *)
Definition stored_default : App :=
  set_files {[ CONFIG_FILE := dumps default_config ]} window0.

(** * The rest of the program *)

(** ** [str.strip()] *)

Fixpoint lstrip (s : pystr) : pystr :=
  match s with
  | c :: r => if Str.isspace c then lstrip r else s
  | [] => []
  end.

Definition rstrip (s : pystr) : pystr := rev (lstrip (rev s)).

(** [s.strip()]: the white space at both ends removed. *)
Definition strip (s : pystr) : pystr := rstrip (lstrip s).

(** ** [class AddConnectionDialog] *)

(** The connection being edited, if any, its row, and the texts of the three
    line edits. *)
Record AddConnectionDialog := mkDialog {
  dlg_connection : option Connection;
  dlg_index : option Z;
  name_edit : pystr;
  url_edit : pystr;
  args_edit : pystr
}.

(** [AddConnectionDialog.__init__]: the fields show the connection being
    edited; for a new connection the arguments start as [socks]. *)
Definition AddConnectionDialog_init (connection : option Connection)
    (index : option Z) : AddConnectionDialog :=
  match connection with
  | Some c => mkDialog connection index (name c) (url c) (arguments c)
  | None => mkDialog connection index [] [] (py "socks")
  end.

(** The user types into the three fields. *)
Definition type_fields (n u a : pystr) (d : AddConnectionDialog)
  : AddConnectionDialog :=
  mkDialog (dlg_connection d) (dlg_index d) n u a.

(** [AddConnectionDialog.save_connection]: [None] is the warning, after
    which the dialog stays open; otherwise the dialog is accepted and this is
    its connection (the object edited, updated in place, or a new one). *)
Definition save_connection (d : AddConnectionDialog) : option Connection :=
  let name := strip (name_edit d) in
  let url := strip (url_edit d) in
  let args := strip (args_edit d) in
  if bool_decide (name = []) || bool_decide (url = []) then None
  else Some (mkConnection name url args).

(** ** [Connection.from_dict] and [MainWindow.__init__] *)

(** Exceptions of the interpreter raised on values of the wrong shape. *)
Inductive py_error :=
| KeyError
| TypeError
| AttributeError.

(** [d.get(k)] on a [dict] *)
Fixpoint dict_get (k : pystr) (d : list (pystr * json)) : option json :=
  match d with
  | [] => None
  | (k', v) :: d' => if decide (k' = k) then Some v else dict_get k d'
  end.

(** [data[key]] for a string [key]: only a [dict] can be indexed so. *)
Definition subscript (data : json) (key : pystr) : py_error + json :=
  match data with
  | JObj d =>
      match dict_get key d with
      | Some v => inr v
      | None => inl KeyError
      end
  | _ => inl TypeError
  end.

(** [data.get(key, default)]: only a [dict] has the method. *)
Definition json_get (data : json) (key : pystr) (default : json)
  : py_error + json :=
  match data with
  | JObj d =>
      match dict_get key d with
      | Some v => inr v
      | None => inr default
      end
  | _ => inl AttributeError
  end.

(** [for c in data]: the items of a list, the keys of a [dict], the
    characters of a string; nothing else loaded from JSON can be iterated. *)
Definition json_iter (data : json) : py_error + list json :=
  match data with
  | JArr items => inr items
  | JObj d => inr (map (fun kv => JStr (fst kv)) d)
  | JStr s => inr (map (fun c => JStr [c]) s)
  | _ => inl TypeError
  end.

(** A [Connection] object as [from_dict] builds it: the three values found
    in the dictionary, of whatever type. *)
Record ConnectionObject := mkObject {
  obj_name : json;
  obj_url : json;
  obj_arguments : json
}.

(** [Connection.from_dict] *)
Definition from_dict (data : json) : py_error + ConnectionObject :=
  match subscript data (py "name") with
  | inl e => inl e
  | inr n =>
      match subscript data (py "url") with
      | inl e => inl e
      | inr u =>
          match subscript data (py "arguments") with
          | inl e => inl e
          | inr a => inr (mkObject n u a)
          end
      end
  end.

(** [[Connection.from_dict(c) for c in entries]] *)
Fixpoint from_dicts (entries : list json) : py_error + list ConnectionObject :=
  match entries with
  | [] => inr []
  | c :: rest =>
      match from_dict c with
      | inl e => inl e
      | inr o =>
          match from_dicts rest with
          | inl e => inl e
          | inr os => inr (o :: os)
          end
      end
  end.

(** The object as a [Connection] of the declared types, when its three
    values are strings. *)
Definition as_connection (o : ConnectionObject) : option Connection :=
  match obj_name o, obj_url o, obj_arguments o with
  | JStr n, JStr u, JStr a => Some (mkConnection n u a)
  | _, _, _ => None
  end.

Fixpoint as_connections (os : list ConnectionObject) : option (list Connection) :=
  match os with
  | [] => Some []
  | o :: rest =>
      match as_connection o, as_connections rest with
      | Some c, Some cs => Some (c :: cs)
      | _, _ => None
      end
  end.

(** How the program starts: the window, an exception out of [__init__], or
    a window holding a connection with a value that is not a string, which
    [App] does not describe. *)
Inductive startup :=
| Started (st : App)
| Crashed (e : exn + py_error)
| IllTyped.

(** [MainWindow.__init__], from the file system and whether [chisel] can be
    started: the configuration is loaded, the connections are built from
    it, the settings are taken from it, the rows are rendered. *)
Definition MainWindow_start (ok : bool) (fs : gmap string pystr) : startup :=
  match load_config (mkApp [] JNull JNull None None [] NotConnected [] ok fs []) with
  | (Raise e, _) => Crashed (inl e)
  | (Return cfg, _) =>
      match json_get cfg (py "connections") (JArr []) with
      | inl e => Crashed (inr e)
      | inr found =>
          match json_iter found with
          | inl e => Crashed (inr e)
          | inr entries =>
              match from_dicts entries with
              | inl e => Crashed (inr e)
              | inr objects =>
                  match json_get cfg (py "settings") (JObj []) with
                  | inl e => Crashed (inr e)
                  | inr settings =>
                      match as_connections objects with
                      | Some conns =>
                          Started (MainWindow_init conns settings cfg ok fs)
                      | None => IllTyped
                      end
                  end
              end
          end
      end
  end.

(** ** [MainWindow.closeEvent] *)

(** The button pressed in the question box. *)
Inductive reply := Yes | No | Cancel.

(** What becomes of the close event: ignored with the window hidden,
    accepted, or ignored. *)
Inductive close_outcome := HiddenToTray | Accepted | Ignored.

(** [MainWindow.closeEvent] *)
Definition closeEvent (r : reply) : M close_outcome :=
  match r with
  | Yes => ret HiddenToTray
  | No =>
      stop_chisel_process ;;
      save_all ;;
      ret Accepted
  | Cancel => ret Ignored
  end.

(** ** Values that survive encoding and decoding *)

(** A Unicode scalar value: below 0x110000 and not a surrogate. *)
Definition scalar_value (c : N) : bool :=
  ((c <? 55296) || (57343 <? c) && (c <? 1114112))%N.

Definition textb (s : pystr) : bool := forallb scalar_value s.

(** Values made of [null], booleans, integers, strings of scalar values,
    lists, and dictionaries whose keys are such strings, all distinct. *)
Fixpoint plainb (j : json) : bool :=
  match j with
  | JNull | JBool _ | JInt _ => true
  | JFloat _ => false
  | JStr s => textb s
  | JArr items => forallb plainb items
  | JObj members =>
      bool_decide (NoDup (map fst members))
      && forallb (fun kv => match kv with (k, v) => textb k && plainb v end) members
  end.

(** No number with a fraction or an exponent anywhere in the value. *)
Fixpoint floatless (j : json) : bool :=
  match j with
  | JFloat _ => false
  | JArr items => forallb floatless items
  | JObj members => forallb (fun kv => match kv with (_, v) => floatless v end) members
  | _ => true
  end.

(** A printable ASCII character or a line feed. *)
Definition ascii_text (c : N) : bool := ((c =? 10) || (32 <=? c) && (c <=? 126))%N.

(** A connection whose three fields are strings of scalar values. *)
Definition text_connection (c : Connection) : bool :=
  textb (name c) && textb (url c) && textb (arguments c).

(** [P] holds on the [n] numbers from [start]. *)
Fixpoint holds_from (n : nat) (P : N -> bool) (start : N) : bool :=
  match n with
  | O => true
  | S k => P start && holds_from k P (N.succ start)
  end.

Definition hex4_ok (n : N) : bool :=
  match hex4 n with
  | [a; b; c; d] =>
      match unhex4 a b c d with
      | Some m => (m =? n)%N
      | None => false
      end
  | _ => false
  end.

Definition pair_ok (hi_bits lo_bits : N) : bool :=
  let v := (1024 * hi_bits + lo_bits)%N in
  let hi := N.lor 55296 (N.land (N.shiftr v 10) 1023) in
  let lo := N.lor 56320 (N.land v 1023) in
  (hi <? 65536)%N && (lo <? 65536)%N && is_high_surrogate hi
  && is_low_surrogate lo && (join_surrogates hi lo =? 65536 + v)%N.

(** The digits of a decimal number, as code points. *)
Fixpoint uint_codes (d : Decimal.uint) : list N :=
  match d with
  | Decimal.Nil => []
  | Decimal.D0 l => 48%N :: uint_codes l
  | Decimal.D1 l => 49%N :: uint_codes l
  | Decimal.D2 l => 50%N :: uint_codes l
  | Decimal.D3 l => 51%N :: uint_codes l
  | Decimal.D4 l => 52%N :: uint_codes l
  | Decimal.D5 l => 53%N :: uint_codes l
  | Decimal.D6 l => 54%N :: uint_codes l
  | Decimal.D7 l => 55%N :: uint_codes l
  | Decimal.D8 l => 56%N :: uint_codes l
  | Decimal.D9 l => 57%N :: uint_codes l
  end.

Definition digit_step (acc : Z) (c : N) : Z := acc * 10 + (Z.of_N c - 48).

(** What may follow a value in the text [dumps] writes. *)
Definition delimited (rest : list N) : Prop :=
  match rest with
  | [] => True
  | c :: _ => c = 44%N \/ c = 10%N
  end.

Fixpoint join_tokens (l : list (list token)) : list token :=
  match l with
  | [] => []
  | [x] => x
  | x :: rest => x ++ TComma :: join_tokens rest
  end.

(** The tokens of the text [dumps] writes for a value. *)
Fixpoint tokens (j : json) : list token :=
  match j with
  | JArr items => TLBracket :: join_tokens (map tokens items) ++ [TRBracket]
  | JObj members =>
      TLBrace
      :: join_tokens
           (map (fun kv => match kv with
                           | (k, v) => TScalar (JStr k) :: TColon :: tokens v
                           end) members)
      ++ [TRBrace]
  | _ => [TScalar j]
  end.

Definition member_tokens (kv : pystr * json) : list token :=
  match kv with (k, v) => TScalar (JStr k) :: TColon :: tokens v end.

Definition value_expected (x : expect) : Prop := x = XValue \/ x = XValueOrClose.

Definition key_expected (x : expect) : Prop := x = XKeyOrClose \/ x = XKey.

Definition parse_after (r : option (list frame * expect)) (ts : list token)
  : option json :=
  match r with
  | Some st => parse ts st
  | None => None
  end.

(** ** Notions used in the statements *)

(** No white space at either end. *)
Definition trimmed (s : pystr) : Prop :=
  (forall c, head s = Some c -> Str.isspace c = false) /\
  (forall c, last s = Some c -> Str.isspace c = false).

(** Nothing but white space. *)
Definition blank (s : pystr) : Prop := Forall (fun c => Str.isspace c = true) s.

(** The configuration file holds what [save_all] would write now. *)
Definition in_sync (st : App) : Prop :=
  files st !! CONFIG_FILE = Some (dumps (saved_data st)).

(** A text laid out as words and gaps: the white space [lead], then each
    word followed by its gap of white space. *)
Definition spaced (lead : pystr) (wgs : list (pystr * pystr)) : pystr :=
  lead ++ concat (map (fun wg => fst wg ++ snd wg) wgs).

(** The words are words, the gaps are white space, and only the gap after
    the last word may be empty. *)
Fixpoint layout (wgs : list (pystr * pystr)) : Prop :=
  match wgs with
  | [] => True
  | (w, gap) :: rest =>
      Str.word w /\ blank gap /\ (rest <> [] -> gap <> []) /\ layout rest
  end.

(** An event the program may cause when the connections are [conns]: a
    [Popen] is that of [chisel client] with the url and the tokens of the
    arguments of one of them. *)
Definition listed_event (conns : list Connection) (e : event) : Prop :=
  match e with
  | EPopen cmd _ =>
      exists conn,
        conn ∈ conns /\
        cmd = [py "chisel"; py "client"; url conn] ++ Str.split (arguments conn)
  | _ => True
  end.

(** [st'] has the trace of [st] and then such events only. *)
Definition trace_adds (conns : list Connection) (st st' : App) : Prop :=
  exists evs, trace st' = trace st ++ evs /\ Forall (listed_event conns) evs.

(** A run of the program, the latest state first: it begins with a fresh
    window and goes on by steps. *)
Inductive history : list App -> Prop :=
| history_init conns settings cfg ok fs :
    history [MainWindow_init conns settings cfg ok fs]
| history_step st st' past :
    history (st :: past) -> step st st' -> history (st' :: st :: past).

(** ** More sample windows *)

(** A connection whose name is not ASCII: an accented letter and a
    character outside the basic plane. *)
Definition cafe : Connection :=
  mkConnection (py "caf" ++ [233%N; 128512%N]) (py "https://c.example") (py "socks").

Definition window_cafe : App :=
  MainWindow_init [cafe] settings0 default_config true ∅.

(** Connect clicked on the row of [office]. *)
Definition running_office : App := exec (run (Connect 1)) window0.

(** The dialog for a new connection, its fields typed with white space
    around the texts. *)
Definition typed_dialog : AddConnectionDialog :=
  type_fields (py "  home ") (py " wss://h.example:9000")
    (py " socks  --keepalive 5s ") (AddConnectionDialog_init None None).

(** The same with a name that is only white space. *)
Definition nameless_dialog : AddConnectionDialog :=
  type_fields (py "   ") (py "wss://h.example:9000") (py "socks")
    (AddConnectionDialog_init None None).

(** File systems whose configuration is an empty object, has a connection
    without arguments, has a string for a connection, is a list. *)
Definition fs_empty_object : gmap string pystr := {[ CONFIG_FILE := py "{}" ]}.

Definition fs_no_arguments : gmap string pystr :=
  {[ CONFIG_FILE := pyq "{'connections': [{'name': 'a', 'url': 'b'}]}" ]}.

Definition fs_string_entry : gmap string pystr :=
  {[ CONFIG_FILE := pyq "{'connections': ['a']}" ]}.

Definition fs_list : gmap string pystr := {[ CONFIG_FILE := py "[]" ]}.

(** A configuration that holds the connection [home] and no settings. *)
Definition fs_no_settings : gmap string pystr :=
  {[ CONFIG_FILE :=
       pyq "{'connections': [{'name': 'home', 'url': 'wss://h.example:9000', 'arguments': 'socks'}]}" ]}.

(** A connection whose arguments are three tokens, with a tab, two spaces
    and white space at both ends. *)
Definition tunnel : Connection :=
  mkConnection (py "tunnel") (py "wss://t.example")
    ([32%N] ++ py "socks" ++ [9%N] ++ py "--keepalive" ++ [32%N; 32%N]
     ++ py "5s" ++ [32%N]).

(** * Properties *)

Arguments py : simpl never.
Arguments projection : simpl never.
Arguments dumps : simpl never.
Arguments loads : simpl never.
Arguments Str.split : simpl never.
Arguments chisel_cmd : simpl never.
Arguments stop_chisel_process : simpl never.
Arguments start_chisel : simpl never.
Arguments update_buttons_state : simpl never.
Arguments render_connections : simpl never.
Arguments save_config : simpl never.
Arguments save_all : simpl never.
Arguments delete_connection : simpl never.

Ltac run_m :=
  unfold bind, gets, modify, when, ret, raise, try_except in *; cbn.

(** ** What each method leaves behind *)

Lemma imap_row_flags {A} (a : option Z) (l : list A) k :
  imap (fun i _ => row_flags a (k + i)) l = map (row_flags a) (seq k (length l)).
Proof.
  revert k. induction l as [|x l IH]; intros k; [done|].
  cbn. rewrite Nat.add_0_r. f_equal.
  rewrite <- IH. apply imap_ext. intros. cbn. f_equal. lia.
Qed.

Lemma projection_length a n : length (projection a n) = n.
Proof. unfold projection. by rewrite length_map, length_seq. Qed.

Lemma projection_lookup a n i :
  (i < n)%nat -> projection a n !! i = Some (row_flags a i).
Proof.
  intros H. unfold projection. rewrite list_lookup_fmap.
  by rewrite lookup_seq_lt.
Qed.

Lemma projection_lookup_inv a n i b :
  projection a n !! i = Some b -> (i < n)%nat /\ b = row_flags a i.
Proof.
  intros H. assert (i < n)%nat as Hlt.
  { apply lookup_lt_Some in H. by rewrite projection_length in H. }
  rewrite projection_lookup in H by done. split; congruence.
Qed.

Lemma update_buttons_state_eq st :
  update_buttons_state st
  = (Return tt,
     set_connection_buttons
       (projection (active_connection_index st) (length (connection_buttons st)))
       st).
Proof.
  unfold update_buttons_state. run_m. do 2 f_equal.
  apply (imap_row_flags (active_connection_index st) (connection_buttons st) 0).
Qed.

Lemma render_connections_eq st :
  render_connections st
  = (Return tt,
     set_connection_buttons
       (projection (active_connection_index st) (length (connections st))) st).
Proof.
  unfold render_connections. run_m. rewrite update_buttons_state_eq. cbn.
  by rewrite length_map.
Qed.

Lemma stop_chisel_process_eq st :
  stop_chisel_process st = (Return tt, stopped st).
Proof.
  unfold stop_chisel_process, stopped, poll, terminate, wait. run_m.
  destruct (active_process st) as [p|]; cbn; [|done].
  by case_bool_decide.
Qed.

Lemma start_chisel_eq conn st :
  start_chisel conn st = (Return tt, started conn st).
Proof.
  unfold start_chisel, started, Popen. run_m.
  by destruct (popen_ok st).
Qed.

Lemma save_config_eq data st :
  save_config data st
  = (Return tt,
     log (EWrite CONFIG_FILE (dumps data))
       (set_files (<[CONFIG_FILE := dumps data]> (files st))
          (log (EOpenW CONFIG_FILE) st))).
Proof.
  unfold save_config, save_config_steps, seq_, open_w, write. run_m.
  unfold log, set_files; cbn. do 2 f_equal.
  rewrite lookup_insert_eq. cbn. by rewrite insert_insert_eq.
Qed.

Lemma save_all_eq st : save_all st = (Return tt, saved st).
Proof. unfold save_all. run_m. by rewrite save_config_eq. Qed.

Lemma delete_connection_eq index st :
  delete_connection index st
  = (Return tt,
     if bool_decide (0 <= index < Z.of_nat (length (connections st)))
     then refreshed (delete (Z.to_nat index) (connections st)) st
     else st).
Proof.
  unfold delete_connection. run_m. case_bool_decide; cbn; [|done].
  rewrite save_all_eq. cbn. by rewrite render_connections_eq.
Qed.

Lemma py_index_in_range {A} (l : list A) i :
  0 <= i < Z.of_nat (length l) -> exists x, py_index l i = Some x.
Proof.
  intros H. unfold py_index. rewrite bool_decide_eq_true_2 by lia.
  apply lookup_lt_is_Some_2. lia.
Qed.

Lemma live_after_wait (l : list bool) p q :
  <[p := false]> l !! q = Some true -> l !! q = Some true /\ q <> p.
Proof.
  intros H. destruct (decide (q = p)) as [->|Hne].
  - destruct (decide (p < length l)%nat).
    + rewrite list_lookup_insert_eq in H by done. congruence.
    + rewrite list_insert_ge in H by lia.
      rewrite lookup_ge_None_2 in H by lia. done.
  - rewrite list_lookup_insert_ne in H by done. done.
Qed.

(** ** The invariant of the supervisor *)

Arguments stopped : simpl never.
Arguments started : simpl never.
Arguments saved : simpl never.
Arguments refreshed : simpl never.

Lemma inv_rows st : Inv st -> length (connection_buttons st) = length (connections st).
Proof. intros [_ _ H]. by rewrite H, projection_length. Qed.

Lemma stopped_fields st :
  active_process (stopped st) = None /\
  active_connection_index (stopped st) = active_connection_index st /\
  connections (stopped st) = connections st /\
  connection_buttons (stopped st) = connection_buttons st /\
  popen_ok (stopped st) = popen_ok st /\
  (forall q, procs (stopped st) !! q = Some true ->
             procs st !! q = Some true /\ active_process st <> Some q).
Proof.
  unfold stopped. destruct (active_process st) as [p|] eqn:Hp; cbn.
  - case_bool_decide as Hrun; cbn; repeat split; try done.
    + by apply live_after_wait in H as [? ?].
    + apply live_after_wait in H as [? ?]. congruence.
    + congruence.
  - repeat split; try done.
Qed.

(** Once stopped, no process of the table runs. *)
Lemma stopped_none_live st q :
  Inv st -> procs (stopped st) !! q = Some true -> False.
Proof.
  intros [_ H2 _] Hq. destruct (stopped_fields st) as (_ & _ & _ & _ & _ & S6).
  apply S6 in Hq as [Hq Hne]. by apply H2 in Hq.
Qed.

Lemma inv_after_start conn i st :
  (forall q, procs st !! q = Some true -> False) ->
  length (connection_buttons st) = length (connections st) ->
  let st' := started conn (set_active_connection_index (Some i) st) in
  Inv (set_connection_buttons
         (projection (active_connection_index st')
            (length (connection_buttons st'))) st').
Proof.
  intros Hdead Hrows. unfold started. cbn.
  destruct (popen_ok st); cbn; constructor; cbn; try done.
  - intros q Hq. destruct (decide (q < length (procs st))%nat).
    + rewrite lookup_app_l in Hq by done. by apply Hdead in Hq.
    + apply lookup_lt_Some in Hq. rewrite length_app in Hq. cbn in Hq.
      f_equal. lia.
  - by rewrite Hrows.
  - intros q Hq. by apply Hdead in Hq.
  - by rewrite Hrows.
Qed.

Lemma inv_idle_state st :
  (forall q, procs st !! q = Some true -> False) ->
  length (connection_buttons st) = length (connections st) ->
  Inv (set_connection_buttons (projection None (length (connection_buttons st)))
         (set_active_connection_index None (set_active_process None st))).
Proof.
  intros Hdead Hrows. constructor; cbn; try done.
  - intros q Hq. by apply Hdead in Hq.
  - by rewrite Hrows.
Qed.

Lemma inv_connect i st :
  Inv st -> row_exists i st -> Inv (exec (connect_connection i) st).
Proof.
  intros HI Hrow. pose proof (inv_rows st HI) as Hrows.
  unfold row_exists in Hrow. rewrite Hrows in Hrow.
  destruct (py_index_in_range _ _ Hrow) as [conn Hconn].
  unfold exec, connect_connection, connect_stop_other, connect_start, getitem. run_m.
  destruct (stopped_fields st) as (S1 & S2 & S3 & S4 & S5 & S6).
  destruct (active_connection_index st) as [a|] eqn:Ha; cbn.
  - case_bool_decide as Hai; cbn.
    + rewrite stop_chisel_process_eq. cbn. rewrite bool_decide_eq_true_2 by done. cbn.
      rewrite S3, Hconn. cbn. rewrite start_chisel_eq. cbn. rewrite update_buttons_state_eq. cbn.
      apply (inv_after_start conn i (set_active_connection_index None (stopped st))); cbn.
      * intros q. by apply stopped_none_live.
      * by rewrite S3, S4.
    + rewrite Ha. cbn. rewrite bool_decide_eq_false_2 by (intros ?; congruence). cbn.
      rewrite update_buttons_state_eq. cbn. destruct HI as [H1 H2 H3].
      constructor; cbn; try done. by rewrite Ha, Hrows in *.
  - rewrite Ha. rewrite bool_decide_eq_true_2 by done. cbn. rewrite Hconn. cbn. rewrite start_chisel_eq. cbn. rewrite update_buttons_state_eq. cbn.
    apply (inv_after_start conn i st); [|done].
    intros q Hq. destruct HI as [H1 H2 H3]. apply H2 in Hq.
    destruct H1 as [H1 _]. rewrite H1 in Hq; done.
Qed.

Lemma inv_disconnect i st : Inv st -> Inv (exec (disconnect_connection i) st).
Proof.
  intros HI. pose proof (inv_rows st HI) as Hrows.
  unfold exec, disconnect_connection. run_m.
  case_bool_decide as Hai; cbn; [|done].
  rewrite stop_chisel_process_eq. cbn. rewrite update_buttons_state_eq. cbn.
  destruct (stopped_fields st) as (S1 & S2 & S3 & S4 & S5 & S6).
  constructor; cbn; try done.
  - intros q Hq. by apply stopped_none_live in Hq.
  - by rewrite S3, S4, Hrows.
Qed.

Lemma inv_refreshed conns st : Inv st -> Inv (refreshed conns st).
Proof. intros [H1 H2 H3]. constructor; cbn; done. Qed.

Lemma inv_delete i st : Inv st -> Inv (exec (delete_connection i) st).
Proof.
  intros HI. unfold exec. rewrite delete_connection_eq. cbn.
  case_bool_decide; [by apply inv_refreshed|done].
Qed.

Lemma add_connection_dialog_eq r st :
  add_connection_dialog r st
  = (Return tt,
     match r with
     | Some conn => refreshed (connections st ++ [conn]) st
     | None => st
     end).
Proof.
  destruct r as [conn|]; [|done]. unfold add_connection_dialog. run_m.
  rewrite save_all_eq. cbn. by rewrite render_connections_eq.
Qed.

Lemma inv_add r st : Inv st -> Inv (exec (add_connection_dialog r) st).
Proof.
  intros HI. unfold exec. rewrite add_connection_dialog_eq. cbn.
  destruct r; [by apply inv_refreshed|done].
Qed.

Lemma inv_settings i r st : Inv st -> Inv (exec (open_connection_settings i r) st).
Proof.
  intros HI. unfold exec, open_connection_settings, getitem. run_m.
  destruct (py_index (connections st) i) as [c|]; cbn; [|done].
  destruct r as [edited| |]; cbn.
  - rewrite save_all_eq. cbn. rewrite render_connections_eq. cbn.
    apply (inv_refreshed (<[py_position (connections st) i := edited]> (connections st)) st HI).
  - apply inv_delete, HI.
  - done.
Qed.

Lemma inv_tick st : Inv st -> Inv (exec update_connection_status st).
Proof.
  intros HI. pose proof (inv_rows st HI) as Hrows.
  unfold exec, update_connection_status, poll, getitem. run_m.
  destruct (active_connection_index st) as [a|] eqn:Ha; cbn;
    [destruct (active_process st) as [p|] eqn:Hp; cbn|].
  2,3: destruct HI as [H1 H2 H3]; constructor; cbn; try done; by rewrite ?Ha.
  case_bool_decide as Hrun; cbn.
  - destruct (py_index (connections st) a) as [c|]; cbn;
      destruct HI as [H1 H2 H3]; constructor; cbn; try done; by rewrite ?Ha.
  - rewrite stop_chisel_process_eq. cbn. rewrite update_buttons_state_eq. cbn.
    assert (Inv (log (EPoll p false) st)) as HI' by (by destruct HI).
    destruct (stopped_fields (log (EPoll p false) st)) as (S1 & S2 & S3 & S4 & S5 & S6).
    constructor; cbn; try done.
    + intros q Hq. by apply stopped_none_live in Hq.
    + cbn in S3, S4. by rewrite S3, S4, Hrows.
Qed.

Lemma inv_init conns settings cfg ok fs : Inv (MainWindow_init conns settings cfg ok fs).
Proof.
  unfold MainWindow_init, exec. rewrite render_connections_eq. by constructor.
Qed.

Lemma inv_step st st' : Inv st -> step st st' -> Inv st'.
Proof.
  intros HI Hstep. destruct Hstep as [c st Hc|p st|ok st].
  - destruct c; unfold run, clickable in *.
    + by apply inv_connect.
    + by apply inv_disconnect.
    + by apply inv_delete.
    + by apply inv_add.
    + by apply inv_settings.
    + by apply inv_tick.
  - destruct HI as [H1 H2 H3]. constructor; cbn; try done.
    intros q Hq. apply live_after_wait in Hq as [Hq _]. by apply H2.
  - by destruct HI.
Qed.

Lemma reachable_inv st : reachable st -> Inv st.
Proof.
  induction 1 as [|st st' _ IH Hstep]; [apply inv_init|by eapply inv_step].
Qed.

(** ** [str.split()] *)

Module SplitFacts.

Import Str.

Lemma split_go_words cur s :
nospace cur -> Forall word (split_go cur s).
Proof.
revert cur. induction s as [|c r IH]; intros cur Hcur; cbn.
- destruct cur; [constructor|]. constructor; [|constructor]. by split.
- destruct (isspace c) eqn:Hc.
  + destruct cur as [|x cur'].
    * apply IH. constructor.
    * constructor; [by split|]. apply IH. constructor.
  + apply IH. apply Forall_app. split; [done|]. by constructor.
Qed.

Lemma split_go_concat (cur s : list N) :
concat (split_go cur s) = cur ++ filter (fun c => isspace c = false) s.
Proof.
revert cur. induction s as [|c r IH]; intros cur; cbn [split_go].
- destruct cur; cbn; by rewrite ?app_nil_r.
- rewrite filter_cons. destruct (isspace c) eqn:Hc.
  + rewrite decide_False by done.
    destruct cur as [|x cur']; cbn; rewrite IH; done.
  + rewrite decide_True by done. rewrite IH. by rewrite <- app_assoc.
Qed.

Lemma split_go_nospace cur w s :
nospace w -> split_go cur (w ++ s) = split_go (cur ++ w) s.
Proof.
intros Hw. revert cur. induction Hw as [|c w Hc Hw IH]; intros cur; cbn.
- by rewrite app_nil_r.
- rewrite Hc. rewrite IH. by rewrite <- app_assoc.
Qed.

(** One word, a space, the rest. *)
Lemma split_word_space w c s :
word w -> isspace c = true -> split (w ++ c :: s) = w :: split s.
Proof.
intros [Hne Hw] Hc. unfold split. rewrite split_go_nospace by done. cbn.
rewrite Hc. by destruct w.
Qed.

Lemma split_word w : word w -> split w = [w].
Proof.
intros [Hne Hw]. unfold split. rewrite <- (app_nil_r w) at 1.
rewrite split_go_nospace by done. cbn. by destruct w.
Qed.

Lemma split_quoted a b :
nospace a -> nospace b ->
split ([34%N] ++ a ++ [32%N] ++ b ++ [34%N]) = [[34%N] ++ a; b ++ [34%N]].
Proof.
intros Ha Hb.
assert (word ([34%N] ++ a)) as Wa.
{ split; [done|]. apply Forall_app. split; [|done]. by constructor. }
assert (word (b ++ [34%N])) as Wb.
{ split; [by destruct b|]. apply Forall_app. split; [done|]. by constructor. }
replace ([34%N] ++ a ++ [32%N] ++ b ++ [34%N])
  with (([34%N] ++ a) ++ 32%N :: (b ++ [34%N])) by (by rewrite <- !app_assoc).
rewrite split_word_space by done. by rewrite split_word.
Qed.

Lemma split_go_blank (lead s : list N) :
blank lead -> split_go [] (lead ++ s) = split_go [] s.
Proof.
induction 1 as [|c lead Hc _ IH]; [done|]. cbn. by rewrite Hc.
Qed.

(** The tokens of a text laid out as words and gaps are its words. *)
Lemma split_spaced lead wgs :
blank lead -> layout wgs -> split (spaced lead wgs) = map fst wgs.
Proof.
intros Hlead Hwgs. unfold split, spaced. rewrite split_go_blank by done.
clear lead Hlead. induction wgs as [|[w gap] rest IH]; [done|].
destruct Hwgs as (Hw & Hgap & Hlast & Hrest). cbn [map concat fst snd].
destruct gap as [|c gap].
- destruct rest as [|wg rest]; [|by destruct Hlast].
  cbn. rewrite !app_nil_r. by apply split_word.
- rewrite <- app_assoc. cbn [app].
  apply Forall_cons in Hgap as [Hc Hgap].
  pose proof (split_word_space w c
                (gap ++ concat (map (fun wg => fst wg ++ snd wg) rest)) Hw Hc) as E.
  unfold split in E. rewrite E. f_equal.
  rewrite split_go_blank by done. by apply IH.
Qed.

(** Every text is laid out so. *)
Lemma spaced_exists (s : list N) :
exists lead wgs, s = spaced lead wgs /\ blank lead /\ layout wgs.
Proof.
induction s as [|c r IH].
- exists [], []. split; [done|]. split; [constructor|done].
- destruct IH as (lead & wgs & -> & Hlead & Hwgs).
  destruct (isspace c) eqn:Hc.
  + exists (c :: lead), wgs. split; [done|]. split; [by constructor|done].
  + destruct lead as [|l lead].
    * destruct wgs as [|[w gap] rest].
      -- exists [], [([c], [])]. split; [done|]. split; [constructor|].
         split; [by split; [|repeat constructor]|]. split; [constructor|done].
      -- destruct Hwgs as ((Hne & Hw) & Hgap & Hlast & Hrest).
         exists [], ((c :: w, gap) :: rest). split; [done|].
         split; [constructor|]. split; [by split; [|constructor]|done].
    * exists [], (([c], l :: lead) :: wgs). split; [done|].
      split; [constructor|]. split; [by split; [|repeat constructor]|].
      split; [done|]. split; [done|done].
Qed.
End SplitFacts.

Lemma running_home_reachable : reachable running_home.
Proof.
  apply reachable_step with window0; [apply reachable_init|].
  apply (step_command (Connect 0)). unfold clickable, row_exists.
  vm_compute. split; [discriminate|reflexivity].
Qed.

Lemma exited_home_reachable : reachable exited_home.
Proof.
  apply reachable_step with running_home; [apply running_home_reachable|].
  apply step_exit.
Qed.

(** ** The claims *)

(** C1 (defect of the code).  [home] is the only connection and it is
    active, with its process running.  [delete_connection(0)] does not
    disconnect first: after it the list is empty and no row is rendered, yet
    the process handle is still held, the process still runs, the active
    index is still 0, the label is unchanged, and nothing was terminated or
    waited for.  The state still refers to the connection removed: the next
    timer tick finds the process running and raises [IndexError] on the name
    of row 0. *)
Lemma delete_connection_keeps_process :
  let st' := exec (delete_connection 0) running_only_home in
  active_connection_index running_only_home = Some 0 /\
  active_process running_only_home = Some 0%nat /\
  connections st' = [] /\
  connection_buttons st' = [] /\
  active_process st' = Some 0%nat /\
  procs st' !! 0%nat = Some true /\
  active_connection_index st' = Some 0 /\
  connection_status_label st' = connection_status_label running_only_home /\
  Forall (fun e => e <> ETerminate 0%nat /\ e <> EWait 0%nat) (trace st') /\
  fst (update_connection_status st') = Raise IndexError.
Proof.
  cbv zeta. repeat split; try (vm_compute; reflexivity).
  vm_compute. repeat constructor; discriminate.
Qed.

(** C2 (as amended).  When the configuration file is missing,
    [load_config] returns the default configuration.  When the file exists
    and its content is malformed, [load_config] fails with the decoder's
    error; when it is well formed, the decoded value is returned. *)
Theorem load_config_missing_or_malformed st :
  (files st !! CONFIG_FILE = None ->
   load_config st = (Return default_config, st)) /\
  (forall text, files st !! CONFIG_FILE = Some text -> loads text = None ->
   load_config st = (Raise JSONDecodeError, st)) /\
  (forall text data, files st !! CONFIG_FILE = Some text ->
   loads text = Some data -> load_config st = (Return data, st)).
Proof.
  unfold load_config. run_m. repeat split.
  - by intros ->.
  - intros text -> Hbad. cbn. by rewrite Hbad.
  - intros text data -> Hok. cbn. by rewrite Hok.
Qed.

Lemma load_config_missing_or_malformed_witness :
  load_config window0 = (Return default_config, window0) /\
  load_config truncated_config = (Raise JSONDecodeError, truncated_config) /\
  load_config stored_default = (Return default_config, stored_default).
Proof.
  split; [|split].
  - apply (proj1 (load_config_missing_or_malformed window0)). reflexivity.
  - apply (proj1 (proj2 (load_config_missing_or_malformed truncated_config))
             (pyq "{'connections': [")); vm_compute; reflexivity.
  - apply (proj2 (proj2 (load_config_missing_or_malformed stored_default))
             (dumps default_config)); vm_compute; reflexivity.
Defined.

(** C2 (counterexample).  The file exists and holds the first characters of
    a configuration: [load_config] raises [JSONDecodeError], it does not
    return the default configuration. *)
Lemma load_config_malformed_raises :
  files truncated_config !! CONFIG_FILE = Some (pyq "{'connections': [") /\
  load_config truncated_config = (Raise JSONDecodeError, truncated_config) /\
  load_config truncated_config <> (Return default_config, truncated_config).
Proof.
  assert (load_config truncated_config
          = (Raise JSONDecodeError, truncated_config)) as H
    by (vm_compute; reflexivity).
  split; [vm_compute; reflexivity|]. split; [exact H|].
  rewrite H. discriminate.
Qed.

(** C3 (as amended).  [save_config] rewrites the file in place: it opens
    [CONFIG_FILE] for writing, which empties it, then writes the whole
    encoded configuration into it.  When the call returns the file holds
    exactly the new text and no other file was touched; between the two
    statements the file is empty. *)
Theorem save_config_in_place data st :
  let st' := exec (save_config data) st in
  save_config data st = (Return tt, st') /\
  files st' = <[CONFIG_FILE := dumps data]> (files st) /\
  trace st' = trace st ++ [EOpenW CONFIG_FILE; EWrite CONFIG_FILE (dumps data)] /\
  files (exec (seq_ (take 1 (save_config_steps data))) st) !! CONFIG_FILE
  = Some [].
Proof.
  unfold exec. rewrite save_config_eq. cbn. repeat split.
  - by rewrite <- app_assoc.
  - unfold open_w. run_m. apply lookup_insert_eq.
Qed.

(** C3 (counterexample).  The file holds the default configuration and the
    configuration of [window0] is saved.  After the first statement of
    [save_config] the file is empty: it holds neither what it held before nor
    what it holds in the end, and it does not decode. *)
Lemma save_config_truncates_first :
  let data := saved_data window0 in
  let crash := exec (seq_ (take 1 (save_config_steps data))) stored_default in
  files stored_default !! CONFIG_FILE = Some (dumps default_config) /\
  files (exec (save_config data) stored_default) !! CONFIG_FILE
  = Some (dumps data) /\
  files crash !! CONFIG_FILE = Some [] /\
  dumps default_config <> [] /\
  dumps data <> [] /\
  loads [] = None /\
  trace crash = [EOpenW CONFIG_FILE].
Proof.
  cbv zeta. repeat split; try (vm_compute; reflexivity); vm_compute; discriminate.
Qed.

(** C4.  A connection is active and the timer slot finds that its process
    has exited: the slot returns with no active index and no process handle,
    the label on Not Connected and every row back to Connect enabled,
    Disconnect disabled.  It only polled: nothing was terminated and no
    error box was shown. *)
Theorem update_connection_status_exited i p st :
  active_connection_index st = Some i ->
  active_process st = Some p ->
  procs st !! p = Some false ->
  exists st',
    update_connection_status st = (Return tt, st') /\
    active_connection_index st' = None /\
    active_process st' = None /\
    connection_status_label st' = NotConnected /\
    trace st' = trace st ++ [EPoll p false; EPoll p false] /\
    procs st' = procs st /\
    connection_buttons st' = projection None (length (connection_buttons st)).
Proof.
  intros Hi Hp Hx.
  unfold update_connection_status, poll. run_m. rewrite Hi, Hp. cbn.
  rewrite bool_decide_eq_false_2 by congruence. cbn.
  rewrite stop_chisel_process_eq. cbn. rewrite update_buttons_state_eq. cbn.
  unfold stopped. cbn. rewrite Hp, Hx.
  rewrite bool_decide_eq_false_2 by congruence. cbn.
  eexists. split; [reflexivity|]. cbn. repeat split.
  by rewrite <- app_assoc.
Qed.

Lemma update_connection_status_exited_witness :
  exists st',
    update_connection_status exited_home = (Return tt, st') /\
    active_connection_index st' = None /\
    active_process st' = None /\
    connection_status_label st' = NotConnected /\
    trace st' = trace exited_home ++ [EPoll 0%nat false; EPoll 0%nat false] /\
    procs st' = procs exited_home /\
    connection_buttons st'
    = projection None (length (connection_buttons exited_home)).
Proof.
  apply (update_connection_status_exited 0 0%nat exited_home);
    vm_compute; reflexivity.
Defined.

(** C5.  Connection [a] is active with its process [p] running, and
    [connect_connection(b)] is called for another row [b].  The first
    statement polls [p], terminates it and waits for it, once each, and
    leaves no process handle and no active index, [p] having exited.  Only
    then the second statement calls [Popen] once, with the command line of
    [b].  In the end the handle is the new process, which is not [p], or
    nothing if [Popen] failed. *)
Theorem connect_connection_swap a b p conn st :
  active_connection_index st = Some a ->
  active_process st = Some p ->
  procs st !! p = Some true ->
  a <> b ->
  py_index (connections st) b = Some conn ->
  let mid := exec (connect_stop_other b) st in
  let st' := exec (connect_connection b) st in
  let child := if popen_ok st then Some (length (procs st)) else None in
  trace mid = trace st ++ [EPoll p true; ETerminate p; EWait p] /\
  active_process mid = None /\
  active_connection_index mid = None /\
  procs mid !! p = Some false /\
  st' = exec (connect_start b ;; update_buttons_state) mid /\
  trace st' = trace mid ++ EPopen (chisel_cmd conn) child
                        :: (if popen_ok st then [] else [ECritical]) /\
  active_process st' = child /\
  active_connection_index st' = (if popen_ok st then Some b else None) /\
  procs st' !! p = Some false /\
  child <> Some p.
Proof.
  intros Ha Hp Hrun Hab Hconn mid st' child.
  assert (p < length (procs st))%nat as Hlt by (by eapply lookup_lt_Some).
  assert (connect_stop_other b st
          = (Return tt, set_active_connection_index None (stopped st))) as Hstop.
  { unfold connect_stop_other. run_m. rewrite Ha.
    rewrite !bool_decide_eq_true_2 by congruence. cbn.
    by rewrite stop_chisel_process_eq. }
  assert (mid = set_active_connection_index None (stopped st)) as Hmid
    by (unfold mid, exec; by rewrite Hstop).
  assert (st' = exec (connect_start b ;; update_buttons_state) mid) as Hst'.
  { unfold st', exec, connect_connection, bind at 1. rewrite Hstop.
    by rewrite Hmid. }
  assert (stopped st
          = set_active_process None
              (log (EWait p)
                 (set_procs (<[p := false]> (procs st))
                    (log (ETerminate p) (log (EPoll p true) st))))) as Hstopped.
  { unfold stopped. rewrite Hp. by rewrite bool_decide_eq_true_2. }
  assert (exec (connect_start b ;; update_buttons_state) mid
          = set_connection_buttons
              (projection (if popen_ok st then Some b else None)
                 (length (connection_buttons st)))
              (started conn (set_active_connection_index (Some b) mid))) as Hrest.
  { unfold exec, connect_start, getitem. run_m. rewrite Hmid. cbn.
    rewrite bool_decide_eq_true_2 by done. cbn. rewrite Hstopped. cbn.
    rewrite Hconn. cbn. rewrite start_chisel_eq. cbn.
    rewrite update_buttons_state_eq. cbn. unfold started. cbn.
    by destruct (popen_ok st). }
  rewrite Hst', Hrest. rewrite Hmid, Hstopped. unfold started, child. cbn.
  rewrite list_lookup_insert_eq by done.
  rewrite !length_insert.
  repeat split; try done.
  - by rewrite <- !app_assoc.
  - destruct (popen_ok st); cbn; by rewrite <- !app_assoc.
  - by destruct (popen_ok st).
  - by destruct (popen_ok st).
  - destruct (popen_ok st); cbn; [|by rewrite list_lookup_insert_eq].
    rewrite lookup_app_l by (by rewrite length_insert).
    by rewrite list_lookup_insert_eq.
  - destruct (popen_ok st); [|done]. intros [= E]. lia.
Qed.

Lemma connect_connection_swap_witness :
  let mid := exec (connect_stop_other 1) running_home in
  let st' := exec (connect_connection 1) running_home in
  trace mid = trace running_home
              ++ [EPoll 0%nat true; ETerminate 0%nat; EWait 0%nat] /\
  active_process mid = None /\
  active_connection_index mid = None /\
  procs mid !! 0%nat = Some false /\
  st' = exec (connect_start 1 ;; update_buttons_state) mid /\
  trace st' = trace mid ++ [EPopen (chisel_cmd office) (Some 1%nat)] /\
  active_process st' = Some 1%nat /\
  active_connection_index st' = Some 1 /\
  procs st' !! 0%nat = Some false /\
  Some 1%nat <> Some 0%nat.
Proof.
  apply (connect_connection_swap 0 1 0%nat office running_home);
    vm_compute; first [reflexivity | discriminate].
Defined.

(** C6.  The row is already the active one: [connect_connection] returns
    normally, calls neither [Popen] nor [terminate] (the trace and the table
    of processes are as before), and leaves the active index and the process
    handle as they were; only the button flags are computed again. *)
Theorem connect_connection_same_index i st :
  active_connection_index st = Some i ->
  exists st',
    connect_connection i st = (Return tt, st') /\
    active_connection_index st' = Some i /\
    active_process st' = active_process st /\
    procs st' = procs st /\
    trace st' = trace st /\
    st' = set_connection_buttons
            (projection (Some i) (length (connection_buttons st))) st.
Proof.
  intros Hi. unfold connect_connection, connect_stop_other, connect_start.
  run_m. rewrite Hi.
  rewrite (bool_decide_eq_false_2 (Some i <> Some i)) by (intros H; by apply H).
  rewrite andb_false_r. cbn. rewrite Hi.
  rewrite (bool_decide_eq_false_2 (Some i <> Some i)) by (intros H; by apply H).
  cbn. rewrite update_buttons_state_eq. rewrite Hi.
  eexists. split; [reflexivity|]. by cbn.
Qed.

Lemma connect_connection_same_index_witness :
  exists st',
    connect_connection 0 running_home = (Return tt, st') /\
    active_connection_index st' = Some 0 /\
    active_process st' = active_process running_home /\
    procs st' = procs running_home /\
    trace st' = trace running_home /\
    st' = set_connection_buttons
            (projection (Some 0) (length (connection_buttons running_home)))
            running_home.
Proof.
  apply (connect_connection_same_index 0 running_home). vm_compute. reflexivity.
Defined.

(** C7.  [start_chisel] calls [Popen] once, with the list [chisel],
    [client], the url of the connection, then the tokens of its arguments.
    The tokens are what [str.split()] makes of the arguments.  The arguments
    are white space, then words each followed by white space (none needed
    after the last), a word being a non-empty run without white space; however
    they are laid out so, the tokens are exactly these words, in order, one
    token for each.  So each token is a word and together they are the
    characters of the arguments that are not white space.  A double quote is
    a character like any other: a quoted value of two words comes out as two
    tokens, the quotes still on them. *)
Theorem start_chisel_command_line conn st :
  let argv := [py "chisel"; py "client"; url conn] ++ Str.split (arguments conn) in
  let child := if popen_ok st then Some (length (procs st)) else None in
  trace (exec (start_chisel conn) st)
  = trace st ++ EPopen argv child :: (if popen_ok st then [] else [ECritical]) /\
  (exists lead wgs,
     arguments conn = spaced lead wgs /\ blank lead /\ layout wgs) /\
  (forall lead wgs, blank lead -> layout wgs ->
     arguments conn = spaced lead wgs ->
     Str.split (arguments conn) = map fst wgs /\
     trace (exec (start_chisel conn) st)
     = trace st
       ++ EPopen ([py "chisel"; py "client"; url conn] ++ map fst wgs) child
          :: (if popen_ok st then [] else [ECritical])) /\
  Forall Str.word (Str.split (arguments conn)) /\
  concat (Str.split (arguments conn))
  = filter (fun c => Str.isspace c = false) (arguments conn : list N) /\
  (forall a b, Str.nospace a -> Str.nospace b ->
     arguments conn = [34%N] ++ a ++ [32%N] ++ b ++ [34%N] ->
     Str.split (arguments conn) = [[34%N] ++ a; b ++ [34%N]]).
Proof.
  cbv zeta.
  assert (trace (exec (start_chisel conn) st)
          = trace st
            ++ EPopen ([py "chisel"; py "client"; url conn]
                       ++ Str.split (arguments conn))
                 (if popen_ok st then Some (length (procs st)) else None)
               :: (if popen_ok st then [] else [ECritical])) as Htrace.
  { unfold exec. rewrite start_chisel_eq. unfold started, chisel_cmd. cbn.
    destruct (popen_ok st); cbn; by rewrite <- ?app_assoc. }
  split; [exact Htrace|]. split; [apply SplitFacts.spaced_exists|]. split.
  { intros lead wgs Hlead Hwgs Hargs.
    assert (Str.split (arguments conn) = map fst wgs) as Hsplit.
    { rewrite Hargs. by apply SplitFacts.split_spaced. }
    split; [exact Hsplit|]. by rewrite Htrace, Hsplit. }
  split; [apply SplitFacts.split_go_words; constructor|].
  split; [apply (SplitFacts.split_go_concat [] (arguments conn))|].
  intros a b Ha Hb ->. by apply SplitFacts.split_quoted.
Qed.

Lemma start_chisel_command_line_witness :
  trace (exec (start_chisel vault) window0)
  = trace window0
    ++ [EPopen [py "chisel"; py "client"; py "https://v.example";
                pyq "'user"; pyq "name'"] (Some 0%nat)] /\
  Str.split (arguments vault) = [[34%N] ++ py "user"; py "name" ++ [34%N]] /\
  Str.split (arguments tunnel) = [py "socks"; py "--keepalive"; py "5s"] /\
  trace (exec (start_chisel tunnel) window0)
  = trace window0
    ++ [EPopen [py "chisel"; py "client"; py "wss://t.example";
                py "socks"; py "--keepalive"; py "5s"] (Some 0%nat)].
Proof.
  destruct (start_chisel_command_line vault window0)
    as (Htrace & _ & _ & _ & _ & Hq).
  destruct (start_chisel_command_line tunnel window0)
    as (_ & _ & Hlayout & _).
  split; [exact Htrace|].
  split; [apply Hq; [repeat constructor..|vm_compute; reflexivity]|].
  apply (Hlayout [32%N]
           [(py "socks", [9%N]); (py "--keepalive", [32%N; 32%N]);
            (py "5s", [32%N])]).
  - repeat constructor.
  - vm_compute. repeat split; try discriminate; repeat constructor.
  - vm_compute. reflexivity.
Defined.

(** C8.  In every state reached from a fresh window by clicks, timer ticks,
    processes that exit on their own and changes of whether [chisel] can be
    started: there is no active index exactly when there is no process
    handle; a process that runs is the one whose handle is held, so at most
    one runs. *)
Theorem reachable_single_active st :
  reachable st ->
  (active_connection_index st = None <-> active_process st = None) /\
  (forall p, procs st !! p = Some true -> active_process st = Some p) /\
  (forall p q, procs st !! p = Some true -> procs st !! q = Some true -> p = q).
Proof.
  intros Hreach. destruct (reachable_inv st Hreach) as [H1 H2 _].
  repeat split; try apply H1; try apply H2.
  intros p q Hp Hq. apply H2 in Hp, Hq. congruence.
Qed.

Lemma reachable_single_active_witness :
  (active_connection_index exited_home = None
   <-> active_process exited_home = None) /\
  (forall p, procs exited_home !! p = Some true ->
             active_process exited_home = Some p) /\
  (forall p q, procs exited_home !! p = Some true ->
               procs exited_home !! q = Some true -> p = q).
Proof.
  apply (reachable_single_active exited_home). apply exited_home_reachable.
Defined.

(** C9.  In every reachable state the button flags are the projection of
    the active index on the rows, one row per connection: Disconnect is
    enabled on a row exactly when the row is the active index, Connect
    exactly when it is not, so at most one row has Disconnect enabled. *)
Theorem reachable_buttons_projection st :
  reachable st ->
  connection_buttons st
  = projection (active_connection_index st) (length (connections st)) /\
  length (connection_buttons st) = length (connections st) /\
  (forall i c d, connection_buttons st !! i = Some (c, d) ->
     (d = true <-> active_connection_index st = Some (Z.of_nat i)) /\
     (c = true <-> active_connection_index st <> Some (Z.of_nat i))) /\
  (forall i j c c',
     connection_buttons st !! i = Some (c, true) ->
     connection_buttons st !! j = Some (c', true) -> i = j).
Proof.
  intros Hreach. pose proof (reachable_inv st Hreach) as HI.
  pose proof (inv_rows st HI) as Hrows. destruct HI as [_ _ H3].
  assert (forall i c d, connection_buttons st !! i = Some (c, d) ->
            (d = true <-> active_connection_index st = Some (Z.of_nat i)) /\
            (c = true <-> active_connection_index st <> Some (Z.of_nat i)))
    as Hflags.
  { intros i c d Hi. rewrite H3 in Hi.
    apply projection_lookup_inv in Hi as [_ Hi]. unfold row_flags in Hi.
    destruct (active_connection_index st) as [a|].
    - case_bool_decide as Hia; injection Hi as -> ->; subst;
        (split; split; intros; congruence).
    - injection Hi as -> ->. split; split; intros; congruence. }
  split; [done|]. split; [done|]. split; [exact Hflags|].
  intros i j c c' Hi Hj.
  apply Hflags in Hi as [[Hi _] _], Hj as [[Hj _] _].
  specialize (Hi eq_refl). specialize (Hj eq_refl).
  rewrite Hi in Hj. injection Hj. lia.
Qed.

Lemma reachable_buttons_projection_witness :
  connection_buttons running_home
  = projection (active_connection_index running_home)
      (length (connections running_home)) /\
  length (connection_buttons running_home) = length (connections running_home) /\
  (forall i c d, connection_buttons running_home !! i = Some (c, d) ->
     (d = true <-> active_connection_index running_home = Some (Z.of_nat i)) /\
     (c = true <-> active_connection_index running_home <> Some (Z.of_nat i))) /\
  (forall i j c c',
     connection_buttons running_home !! i = Some (c, true) ->
     connection_buttons running_home !! j = Some (c', true) -> i = j).
Proof.
  apply (reachable_buttons_projection running_home).
  apply running_home_reachable.
Defined.

(** C10.  For an index out of range, [delete_connection] returns and the
    state is the one before the call: the list of connections, the active
    index and process handle, the files and the trace, in which a save would
    show, are unchanged. *)
Theorem delete_connection_out_of_range index st :
  ~ (0 <= index < Z.of_nat (length (connections st))) ->
  delete_connection index st = (Return tt, st).
Proof.
  intros Hout. rewrite delete_connection_eq.
  by rewrite bool_decide_eq_false_2.
Qed.

Lemma delete_connection_out_of_range_witness :
  delete_connection 2 running_home = (Return tt, running_home) /\
  delete_connection (-1) running_home = (Return tt, running_home).
Proof.
  split.
  - apply (delete_connection_out_of_range 2 running_home).
    vm_compute. intros [_ H]. discriminate.
  - apply (delete_connection_out_of_range (-1) running_home).
    vm_compute. intros [H _]. by apply H.
Defined.

(** * More of the program *)

(** ** Encoding then decoding *)


Lemma holds_from_spec n P start k :
  holds_from n P start = true ->
  (start <= k < start + N.of_nat n)%N -> P k = true.
Proof.
  revert start. induction n as [|n IH]; intros start H Hk; [lia|].
  cbn [holds_from] in H. apply andb_prop in H as [H0 H1].
  destruct (decide (k = start)) as [->|Hne]; [done|].
  apply (IH (N.succ start)); [done|lia].
Qed.

Lemma hex4_ok_all n : (n < 65536)%N -> hex4_ok n = true.
Proof.
  intros Hn. apply (holds_from_spec (N.to_nat 65536) hex4_ok 0); [|lia].
  vm_compute. reflexivity.
Qed.

Lemma pair_ok_all x y : (x < 1024)%N -> (y < 1024)%N -> pair_ok x y = true.
Proof.
  intros Hx Hy.
  assert (holds_from (N.to_nat 1024)
            (fun x => holds_from (N.to_nat 1024) (pair_ok x) 0) 0 = true) as H
    by (vm_compute; reflexivity).
  apply (holds_from_spec _ _ _ x) in H; [|lia].
  apply (holds_from_spec _ _ _ y) in H; [done|lia].
Qed.

Lemma scanstring_u h1 h2 h3 h4 uni r2 :
  unhex4 h1 h2 h3 h4 = Some uni ->
  is_high_surrogate uni = false ->
  scanstring (92 :: 117 :: h1 :: h2 :: h3 :: h4 :: r2)%N
  = scanned uni 6 (scanstring r2).
Proof.
  intros Hu Hh.
  change (scanstring (92 :: 117 :: h1 :: h2 :: h3 :: h4 :: r2)%N)
    with (match unhex4 h1 h2 h3 h4 with
          | None => None
          | Some uni =>
              match r2 with
              | b :: u :: l1 :: l2 :: l3 :: l4 :: r3 =>
                  match unhex4 l1 l2 l3 l4 with
                  | Some uni2 =>
                      if is_high_surrogate uni && (b =? 92)%N
                         && (u =? 117)%N && is_low_surrogate uni2
                      then scanned (join_surrogates uni uni2) 12 (scanstring r3)
                      else scanned uni 6 (scanstring r2)
                  | None => scanned uni 6 (scanstring r2)
                  end
              | _ => scanned uni 6 (scanstring r2)
              end
          end).
  rewrite Hu, Hh. cbn [andb].
  destruct r2 as [|b [|u [|l1 [|l2 [|l3 [|l4 r3]]]]]]; try reflexivity.
  by destruct (unhex4 l1 l2 l3 l4).
Qed.

Lemma scanstring_pair h1 h2 h3 h4 l1 l2 l3 l4 hi lo r3 :
  unhex4 h1 h2 h3 h4 = Some hi -> unhex4 l1 l2 l3 l4 = Some lo ->
  is_high_surrogate hi = true -> is_low_surrogate lo = true ->
  scanstring (92 :: 117 :: h1 :: h2 :: h3 :: h4
              :: 92 :: 117 :: l1 :: l2 :: l3 :: l4 :: r3)%N
  = scanned (join_surrogates hi lo) 12 (scanstring r3).
Proof.
  intros Hh Hl Hhi Hlo.
  change (scanstring (92 :: 117 :: h1 :: h2 :: h3 :: h4
              :: 92 :: 117 :: l1 :: l2 :: l3 :: l4 :: r3)%N)
    with (match unhex4 h1 h2 h3 h4 with
          | None => None
          | Some uni =>
                  match unhex4 l1 l2 l3 l4 with
                  | Some uni2 =>
                      if is_high_surrogate uni && (92 =? 92)%N
                         && (117 =? 117)%N && is_low_surrogate uni2
                      then scanned (join_surrogates uni uni2) 12 (scanstring r3)
                      else scanned uni 6 (scanstring (92 :: 117 :: l1 :: l2 :: l3 :: l4 :: r3)%N)
                  | None => scanned uni 6 (scanstring (92 :: 117 :: l1 :: l2 :: l3 :: l4 :: r3)%N)
                  end
          end).
  by rewrite Hh, Hl, Hhi, Hlo.
Qed.

Lemma scanstring_plain c r :
  (c =? 34)%N = false -> (c <? 32)%N = false -> (c =? 92)%N = false ->
  scanstring (c :: r) = scanned c 1 (scanstring r).
Proof.
  intros H1 H2 H3. cbn [scanstring]. by rewrite H1, H2, H3.
Qed.

Lemma scanstring_escape e c r :
  unescape e = Some c -> (e =? 117)%N = false ->
  scanstring (92 :: e :: r)%N = scanned c 2 (scanstring r).
Proof.
  intros H1 H2.
  change (scanstring (92 :: e :: r)%N)
    with (if negb (e =? 117)%N then
            match unescape e with
            | Some c' => scanned c' 2 (scanstring r)
            | None => None
            end
          else
            match r with
            | h1 :: h2 :: h3 :: h4 :: r2 =>
                match unhex4 h1 h2 h3 h4 with
                | None => None
                | Some uni =>
                    match r2 with
                    | b :: u :: l1 :: l2 :: l3 :: l4 :: r3 =>
                        match unhex4 l1 l2 l3 l4 with
                        | Some uni2 =>
                            if is_high_surrogate uni && (b =? 92)%N
                               && (u =? 117)%N && is_low_surrogate uni2
                            then scanned (join_surrogates uni uni2) 12
                                   (scanstring r3)
                            else scanned uni 6 (scanstring r2)
                        | None => scanned uni 6 (scanstring r2)
                        end
                    | _ => scanned uni 6 (scanstring r2)
                    end
                end
            | _ => None
            end).
  by rewrite H1, H2.
Qed.

Lemma hex4_shape n : exists a b c d, hex4 n = [a; b; c; d].
Proof. unfold hex4. eauto. Qed.

Lemma scanstring_char c tail :
  scalar_value c = true ->
  scanstring (escape_char c ++ tail)
  = scanned c (length (escape_char c)) (scanstring tail).
Proof.
  intros Hc. unfold escape_char.
  destruct (c =? 34)%N eqn:E34.
  { apply N.eqb_eq in E34 as ->. by apply scanstring_escape. }
  destruct (c =? 92)%N eqn:E92.
  { apply N.eqb_eq in E92 as ->. by apply scanstring_escape. }
  destruct (c =? 10)%N eqn:E10.
  { apply N.eqb_eq in E10 as ->. by apply scanstring_escape. }
  destruct (c =? 13)%N eqn:E13.
  { apply N.eqb_eq in E13 as ->. by apply scanstring_escape. }
  destruct (c =? 9)%N eqn:E9.
  { apply N.eqb_eq in E9 as ->. by apply scanstring_escape. }
  destruct (c =? 8)%N eqn:E8.
  { apply N.eqb_eq in E8 as ->. by apply scanstring_escape. }
  destruct (c =? 12)%N eqn:E12.
  { apply N.eqb_eq in E12 as ->. by apply scanstring_escape. }
  destruct ((32 <=? c) && (c <=? 126))%N eqn:Eplain.
  { apply andb_prop in Eplain as [Hlo Hhi]. apply N.leb_le in Hlo.
    apply scanstring_plain; [done| |done]. apply N.ltb_ge. done. }
  destruct (c <? 65536)%N eqn:Ebmp.
  { apply N.ltb_lt in Ebmp. pose proof (hex4_ok_all c Ebmp) as Hok.
    unfold hex4_ok in Hok. destruct (hex4_shape c) as (h1 & h2 & h3 & h4 & Hhex).
    rewrite Hhex in *. destruct (unhex4 h1 h2 h3 h4) as [m|] eqn:Hm; [|done].
    apply N.eqb_eq in Hok as ->. cbn [app length].
    apply scanstring_u; [done|].
    unfold scalar_value in Hc. unfold is_high_surrogate.
    apply orb_prop in Hc as [Hc|Hc].
    - apply N.ltb_lt in Hc. apply andb_false_intro1. apply N.leb_gt. done.
    - apply andb_prop in Hc as [Hc _]. apply N.ltb_lt in Hc.
      apply andb_false_intro2. apply N.leb_gt. lia. }
  apply N.ltb_ge in Ebmp.
  assert (c < 1114112)%N as Hmax.
  { unfold scalar_value in Hc. apply orb_prop in Hc as [Hc|Hc].
    - apply N.ltb_lt in Hc. lia.
    - apply andb_prop in Hc as [_ Hc]. by apply N.ltb_lt in Hc. }
  set (v := (c - 65536)%N).
  assert (v = 1024 * (v / 1024) + v mod 1024)%N as Hv by (by apply N.div_mod).
  assert (v / 1024 < 1024)%N as Hx by (apply N.Div0.div_lt_upper_bound; lia).
  assert (v mod 1024 < 1024)%N as Hy by (by apply N.mod_lt).
  pose proof (pair_ok_all _ _ Hx Hy) as Hok. unfold pair_ok in Hok.
  cbv zeta in Hok. rewrite <- Hv in Hok.
  set (hi := N.lor 55296 (N.land (N.shiftr v 10) 1023)) in *.
  set (lo := N.lor 56320 (N.land v 1023)) in *.
  apply andb_prop in Hok as [Hok Hjoin]. apply andb_prop in Hok as [Hok Hlow].
  apply andb_prop in Hok as [Hok Hhigh]. apply andb_prop in Hok as [Hhi Hlo].
  apply N.ltb_lt in Hhi, Hlo. apply N.eqb_eq in Hjoin.
  pose proof (hex4_ok_all hi Hhi) as Hh. pose proof (hex4_ok_all lo Hlo) as Hl.
  unfold hex4_ok in Hh, Hl.
  destruct (hex4_shape hi) as (h1 & h2 & h3 & h4 & Hhex).
  destruct (hex4_shape lo) as (l1 & l2 & l3 & l4 & Hlex).
  rewrite Hhex in *. rewrite Hlex in *.
  destruct (unhex4 h1 h2 h3 h4) as [m|] eqn:Hm; [|done].
  destruct (unhex4 l1 l2 l3 l4) as [m'|] eqn:Hm'; [|done].
  apply N.eqb_eq in Hh as ->, Hl as ->. cbn [app length].
  rewrite (scanstring_pair _ _ _ _ _ _ _ _ hi lo) by done.
  rewrite Hjoin. replace (65536 + v)%N with c by lia. done.
Qed.

Lemma scanstring_encoded s rest :
  forallb scalar_value s = true ->
  scanstring (flat_map escape_char s ++ 34%N :: rest)
  = Some (s, S (length (flat_map escape_char s))).
Proof.
  induction s as [|c s IH]; intros Hs; [done|].
  cbn [forallb] in Hs. apply andb_prop in Hs as [Hc Hs].
  cbn [flat_map]. rewrite <- app_assoc. rewrite scanstring_char by done.
  rewrite IH by done. cbn [scanned]. rewrite length_app. do 2 f_equal. lia.
Qed.

Lemma py_string_of_uint d : py (NilEmpty.string_of_uint d) = uint_codes d.
Proof.
  unfold py. induction d; cbn [NilEmpty.string_of_uint list_ascii_of_string map uint_codes];
    [done|rewrite IHd; reflexivity..].
Qed.

Lemma py_String a s : py (String a s) = Ascii.N_of_ascii a :: py s.
Proof. reflexivity. Qed.

Lemma uint_codes_digits d : Forall (fun c => is_digit c = true) (uint_codes d).
Proof. induction d; cbn; constructor; done. Qed.

Lemma fold_digits_acc d acc :
  fold_left digit_step (uint_codes d) (Z.pos acc) = Z.pos (Pos.of_uint_acc d acc).
Proof.
  revert acc. induction d; intros acc; cbn [uint_codes fold_left Pos.of_uint_acc];
    [done|..]; unfold digit_step at 2;
    match goal with |- fold_left _ _ ?z = _ =>
      match goal with |- _ = Z.pos (Pos.of_uint_acc _ ?p) =>
        replace z with (Z.pos p) by lia end end; apply IHd.
Qed.

Lemma fold_digits d :
  fold_left digit_step (uint_codes d) 0 = Z.of_N (Pos.of_uint d).
Proof.
  induction d; cbn [uint_codes fold_left Pos.of_uint]; [done|..].
  - unfold digit_step at 2. cbn. apply IHd.
  - apply (fold_digits_acc d 1).
  - apply (fold_digits_acc d 2).
  - apply (fold_digits_acc d 3).
  - apply (fold_digits_acc d 4).
  - apply (fold_digits_acc d 5).
  - apply (fold_digits_acc d 6).
  - apply (fold_digits_acc d 7).
  - apply (fold_digits_acc d 8).
  - apply (fold_digits_acc d 9).
Qed.

Lemma digits_value_pos p : digits_value (uint_codes (Pos.to_uint p)) = Z.pos p.
Proof.
  unfold digits_value. change (fun acc c => acc * 10 + (Z.of_N c - 48)) with digit_step.
  rewrite fold_digits. by rewrite DecimalPos.Unsigned.of_to.
Qed.

Lemma unorm_D0 l l' : Decimal.unorm l = Decimal.D0 l' -> l' = Decimal.Nil.
Proof.
  induction l; cbn; intros H; try discriminate; try (by injection H).
  by apply IHl.
Qed.

Lemma to_uint_head p :
  exists c r, uint_codes (Pos.to_uint p) = c :: r /\ is_digit c = true /\ (c =? 48)%N = false.
Proof.
  pose proof (DecimalPos.Unsigned.to_of (Pos.to_uint p)) as H.
  rewrite DecimalPos.Unsigned.of_to in H. cbn in H.
  pose proof (DecimalPos.Unsigned.to_uint_nonzero p) as Hnz.
  pose proof (DecimalPos.Unsigned.to_uint_nonnil p) as Hnn.
  destruct (Pos.to_uint p) as [|l|l|l|l|l|l|l|l|l|l] eqn:E; try done;
    try (eexists _, _; split; [reflexivity|done]).
  exfalso. symmetry in H. cbn in H. apply unorm_D0 in H. subst l. by apply Hnz.
Qed.

Lemma take_digits_app ds rest :
  Forall (fun c => is_digit c = true) ds -> delimited rest ->
  take_digits (ds ++ rest) = (ds, rest).
Proof.
  intros Hds Hrest. induction Hds as [|c ds Hc _ IH]; cbn [app take_digits].
  - destruct rest as [|c r]; [done|]. cbn. destruct Hrest as [-> | ->]; done.
  - by rewrite Hc, IH.
Qed.

Ltac finish_number Hrest :=
  match type of Hrest with
  | delimited ?rest =>
      destruct rest as [|? ?];
      [|destruct Hrest as [-> | ->]];
      cbn -[digits_value]; rewrite ?app_nil_r
  end.

Lemma scan_number_encoded z rest :
  delimited rest ->
  scan_number (encode_int z ++ rest) = Some (JInt z, length (encode_int z)).
Proof.
  intros Hrest. unfold encode_int.
  destruct z as [|p|p]; cbn [Z.to_int NilZero.string_of_int].
  - change (py (NilZero.string_of_uint Decimal.zero)) with [48%N].
    unfold scan_number. finish_number Hrest; done.
  - assert (NilZero.string_of_uint (Pos.to_uint p) = NilEmpty.string_of_uint (Pos.to_uint p)) as ->.
    { pose proof (DecimalPos.Unsigned.to_uint_nonnil p). by destruct (Pos.to_uint p). }
    rewrite py_string_of_uint.
    destruct (to_uint_head p) as (c & r & Hcr & Hd & H0).
    pose proof (uint_codes_digits (Pos.to_uint p)) as Hall.
    pose proof (digits_value_pos p) as Hval.
    rewrite Hcr in *. inversion Hall as [|? ? _ Hr]; subst.
    assert ((c =? 45)%N = false) as H45.
    { unfold is_digit in Hd. apply andb_prop in Hd as [Hd _]. apply N.leb_le in Hd.
      apply N.eqb_neq. lia. }
    unfold scan_number. cbn [app]. rewrite H45, Hd, H0. cbn [negb].
    rewrite take_digits_app by done.
    finish_number Hrest; by rewrite Hval.
  - assert (NilZero.string_of_uint (Pos.to_uint p) = NilEmpty.string_of_uint (Pos.to_uint p)) as ->.
    { pose proof (DecimalPos.Unsigned.to_uint_nonnil p). by destruct (Pos.to_uint p). }
    rewrite py_String. change (Ascii.N_of_ascii _) with 45%N.
    rewrite py_string_of_uint.
    destruct (to_uint_head p) as (c & r & Hcr & Hd & H0).
    pose proof (uint_codes_digits (Pos.to_uint p)) as Hall.
    pose proof (digits_value_pos p) as Hval.
    rewrite Hcr in *. inversion Hall as [|? ? _ Hr]; subst.
    unfold scan_number. cbn [app]. change (45 =? 45)%N with true. cbv iota beta.
    rewrite Hd, H0. cbn [negb].
    rewrite take_digits_app by done.
    finish_number Hrest; by rewrite Hval.
Qed.

Lemma json_nested_ind (P : json -> Prop) :
  P JNull -> (forall b, P (JBool b)) -> (forall z, P (JInt z)) ->
  (forall l, P (JFloat l)) -> (forall s, P (JStr s)) ->
  (forall items, Forall P items -> P (JArr items)) ->
  (forall members, Forall (fun kv => P (snd kv)) members -> P (JObj members)) ->
  forall j, P j.
Proof.
  intros HN HB HI HF HS HA HO. fix IH 1. intros [|b|z|l|s|items|members].
  - exact HN.
  - apply HB.
  - apply HI.
  - apply HF.
  - apply HS.
  - apply HA. induction items as [|x items IHitems]; constructor; [apply IH|exact IHitems].
  - apply HO. induction members as [|[k v] members IHm]; constructor; [apply IH|exact IHm].
Qed.

Lemma lex_skip a rest : lex (length a) (a ++ rest) = lex 0 rest.
Proof.
  induction a as [|c a IH]; [done|]. cbn [length app lex]. exact IH.
Qed.

Lemma lex_ws ws rest :
  Forall (fun c => is_ws c = true) ws -> lex 0 (ws ++ rest) = lex 0 rest.
Proof.
  induction 1 as [|c ws Hc _ IH]; [done|]. cbn [app lex]. by rewrite Hc.
Qed.

Lemma lex_token c r rest t :
  is_ws c = false ->
  scan_token c (r ++ rest) = Some (t, S (length r)) ->
  lex 0 (c :: r ++ rest)
  = match lex 0 rest with Some ts => Some (t :: ts) | None => None end.
Proof.
  intros Hc Ht. cbn [lex]. rewrite Hc, Ht. cbn [Nat.pred]. by rewrite lex_skip.
Qed.

Lemma newline_indent_ws level :
  Forall (fun c => is_ws c = true) (newline_indent level).
Proof.
  unfold newline_indent. constructor; [done|].
  induction level as [|n IH]; [constructor|].
  cbn [repeat concat]. apply Forall_app. split; [|exact IH].
  repeat constructor.
Qed.

Lemma lex_str s rest ts :
  textb s = true -> lex 0 rest = Some ts ->
  lex 0 (encode_str s ++ rest) = Some (TScalar (JStr s) :: ts).
Proof.
  intros Hs Hrest. unfold encode_str.
  change ([34%N] ++ flat_map escape_char s ++ [34%N])
    with (34%N :: (flat_map escape_char s ++ [34%N])).
  cbn [app]. rewrite (lex_token _ _ _ (TScalar (JStr s))); [by rewrite Hrest|done|].
  unfold scan_token. cbn -[scanstring].
  rewrite <- app_assoc. cbn [app]. rewrite scanstring_encoded by done.
  rewrite length_app. cbn [length]. do 3 f_equal. lia.
Qed.

Ltac settle_tests c :=
  repeat match goal with
         | |- context [(c =? ?k)%N] => rewrite (proj2 (N.eqb_neq c k)) by lia
         end.

Lemma scan_token_digit c r :
  is_digit c = true ->
  scan_token c r
  = match scan_number (c :: r) with
    | Some (j, n) => Some (TScalar j, n)
    | None => None
    end.
Proof.
  intros Hd. unfold is_digit in Hd. apply andb_prop in Hd as [H1 H2].
  apply N.leb_le in H1, H2. unfold scan_token. settle_tests c.
  replace (starts_with (py "-I") (c :: r)) with false; [done|].
  change (py "-I") with [45%N; 73%N]. cbn [starts_with].
  by rewrite (proj2 (N.eqb_neq 45 c)) by lia.
Qed.

Lemma scan_token_minus x r :
  is_digit x = true ->
  scan_token 45 (x :: r)
  = match scan_number (45%N :: x :: r) with
    | Some (j, n) => Some (TScalar j, n)
    | None => None
    end.
Proof.
  intros Hd. unfold is_digit in Hd. apply andb_prop in Hd as [H1 H2].
  apply N.leb_le in H1, H2. unfold scan_token.
  change (py "-I") with [45%N; 73%N]. cbn [starts_with].
  rewrite (proj2 (N.eqb_neq 73 x)) by lia. done.
Qed.

Lemma lex_int z rest ts :
  delimited rest -> lex 0 rest = Some ts ->
  lex 0 (encode_int z ++ rest) = Some (TScalar (JInt z) :: ts).
Proof.
  intros Hd Hrest. pose proof (scan_number_encoded z rest Hd) as Hnum.
  assert (forall s, scan_number (s ++ rest) = Some (JInt z, length s) -> s <> [] ->
            lex 0 (s ++ rest) = Some (TScalar (JInt z) :: ts)) as Hgen.
  { intros [|c r] Hs Hne; [done|]. cbn [app length] in *.
    assert (is_ws c = false /\
            scan_token c (r ++ rest) = Some (TScalar (JInt z), S (length r)))
      as [Hws Htok].
    { unfold scan_number in Hs.
      destruct (c =? 45)%N eqn:E45.
      - apply N.eqb_eq in E45 as ->. split; [done|].
        destruct (r ++ rest) as [|x s1] eqn:Es1; [done|].
        destruct (is_digit x) eqn:Hx; [|done].
        rewrite scan_token_minus by done. unfold scan_number.
        change (45 =? 45)%N with true. cbv iota beta. rewrite Hx.
        cbn [negb]. cbn [negb] in Hs. by rewrite Hs.
      - destruct (is_digit c) eqn:Hc; [|done]. split.
        + unfold is_digit in Hc. apply andb_prop in Hc as [H1 H2].
          apply N.leb_le in H1, H2. unfold is_ws.
          by rewrite !(proj2 (N.eqb_neq c _)) by lia.
        + rewrite scan_token_digit by done. unfold scan_number.
          rewrite E45, Hc. cbn [negb]. cbn [negb] in Hs. by rewrite Hs. }
    rewrite (lex_token _ _ _ _ Hws Htok). by rewrite Hrest. }
  apply Hgen; [done|].
  intros E. rewrite E in Hnum. cbn in Hnum. unfold scan_number in Hnum.
  destruct rest as [|x rest']; [done|]. destruct Hd as [-> | ->]; done.
Qed.

Lemma lex_keyword (w : string) j c r rest ts :
  py w = c :: r -> is_ws c = false ->
  scan_token c (r ++ rest) = keyword w j (c :: r ++ rest) ->
  lex 0 rest = Some ts ->
  lex 0 (py w ++ rest) = Some (TScalar j :: ts).
Proof.
  intros Hw Hws Htok Hrest. rewrite Hw. cbn [app].
  rewrite (lex_token _ _ _ (TScalar j) Hws); [by rewrite Hrest|].
  rewrite Htok. unfold keyword. rewrite Hw.
  replace (starts_with (c :: r) (c :: r ++ rest)) with true; [done|].
  symmetry. clear. change (c :: r ++ rest) with ((c :: r) ++ rest).
  induction (c :: r) as [|a l IH]; [done|]. cbn [app starts_with].
  by rewrite N.eqb_refl.
Qed.

Lemma lex_punct c t rest ts :
  is_ws c = false -> scan_token c rest = Some (t, 1%nat) ->
  lex 0 rest = Some ts -> lex 0 (c :: rest) = Some (t :: ts).
Proof.
  intros Hws Htok Hrest. pose proof (lex_token c [] rest t Hws Htok) as H.
  cbn [app] in H. by rewrite H, Hrest.
Qed.

Lemma delimited_comma r : delimited (44%N :: r).
Proof. by left. Qed.

Lemma delimited_newline level r : delimited (newline_indent level ++ r).
Proof. by right. Qed.

(** Items, each followed by what [join_items] puts after it. *)
Lemma lex_join_items {A} (enc : A -> pystr) (toks : A -> list token)
    level (items : list A) rest ts :
  items <> [] ->
  Forall (fun x => forall rest ts, delimited rest -> lex 0 rest = Some ts ->
                     lex 0 (enc x ++ rest) = Some (toks x ++ ts)) items ->
  delimited rest -> lex 0 rest = Some ts ->
  lex 0 (join_items level (map enc items) ++ rest)
  = Some (join_tokens (map toks items) ++ ts).
Proof.
  intros Hne Hall Hd Hrest. induction Hall as [|x items Hx Hall IH]; [done|].
  destruct items as [|y items].
  - cbn. by apply Hx.
  - cbn [map join_items join_tokens]. cbn [map] in IH.
    rewrite <- !app_assoc. apply Hx; [apply delimited_comma|].
    cbn [app]. apply lex_punct; [done|done|].
    rewrite lex_ws by apply newline_indent_ws.
    by apply IH.
Qed.

Lemma lex_encode j :
  plainb j = true ->
  forall level rest ts, delimited rest -> lex 0 rest = Some ts ->
    lex 0 (Json.encode level j ++ rest) = Some (tokens j ++ ts).
Proof.
  induction j as [|b|z|l|s|items IH|members IH] using json_nested_ind;
    intros Hp level rest ts Hd Hrest.
  - apply (lex_keyword "null" JNull 110 (py "ull")); done.
  - destruct b.
    + apply (lex_keyword "true" (JBool true) 116 (py "rue")); done.
    + apply (lex_keyword "false" (JBool false) 102 (py "alse")); done.
  - by apply lex_int.
  - done.
  - by apply lex_str.
  - cbn [plainb] in Hp. destruct items as [|x items].
    { cbn [Json.encode tokens map join_tokens app].
      change (py "[]") with [91%N; 93%N]. cbn [app].
      apply lex_punct; [done|done|]. by apply lex_punct. }
    cbn [Json.encode tokens]. set (its := x :: items) in *.
    change (py "[") with [91%N]. change (py "]") with [93%N].
    rewrite <- !app_assoc. cbn [app].
    apply lex_punct; [done|done|].
    rewrite lex_ws by apply newline_indent_ws.
    rewrite <- (app_assoc _ [TRBracket] ts). cbn [app].
    apply (lex_join_items (Json.encode (S level)) tokens); [done| | |].
    + apply Forall_forall. intros y Hy rest' ts' Hd' Hrest'.
      rewrite Forall_forall in IH. apply IH; [done| |done|done].
      rewrite forallb_forall in Hp. apply Hp. by apply list_elem_of_In.
    + apply delimited_newline.
    + rewrite lex_ws by apply newline_indent_ws.
      apply lex_punct; done.
  - cbn [plainb] in Hp. apply andb_prop in Hp as [_ Hp].
    destruct members as [|m members].
    { cbn [Json.encode tokens map join_tokens app].
      change (py "{}") with [123%N; 125%N]. cbn [app].
      apply lex_punct; [done|done|]. by apply lex_punct. }
    cbn [Json.encode tokens]. set (ms := m :: members) in *.
    change (py "{") with [123%N]. change (py "}") with [125%N].
    rewrite <- !app_assoc. cbn [app].
    apply lex_punct; [done|done|].
    rewrite lex_ws by apply newline_indent_ws.
    set (enc := fun kv : pystr * json =>
                  match kv with (k, v) => encode_str k ++ py ": " ++ Json.encode (S level) v end).
    set (toks := fun kv : pystr * json =>
                  match kv with (k, v) => TScalar (JStr k) :: TColon :: tokens v end).
    change (map (fun kv : pystr * json =>
                   let (k, v) := kv in encode_str k ++ py ": " ++ Json.encode (S level) v) ms)
      with (map enc ms).
    change (map (fun kv : pystr * json =>
                   let (k, v) := kv in TScalar (JStr k) :: TColon :: tokens v) ms)
      with (map toks ms).
    rewrite <- (app_assoc _ [TRBrace] ts). cbn [app].
    apply (lex_join_items enc toks); [done| | |].
    + apply Forall_forall. intros [k v] Hkv rest' ts' Hd' Hrest'.
      rewrite Forall_forall in IH. rewrite forallb_forall in Hp.
      specialize (Hp (k, v) (proj1 (list_elem_of_In _ _) Hkv)).
      apply andb_prop in Hp as [Hk Hv]. unfold enc, toks.
      rewrite <- !app_assoc. apply lex_str; [done|].
      change (py ": ") with [58%N; 32%N]. cbn [app].
      apply lex_punct; [done|done|].
      change (32%N :: Json.encode (S level) v ++ rest')
        with ([32%N] ++ Json.encode (S level) v ++ rest').
      rewrite (lex_ws [32%N]) by (by repeat constructor).
      apply (IH (k, v) Hkv); done.
    + apply delimited_newline.
    + rewrite lex_ws by apply newline_indent_ws.
      apply lex_punct; done.
Qed.

Lemma dict_set_fresh k v d :
  k ∉ map fst d -> dict_set k v d = d ++ [(k, v)].
Proof.
  induction d as [|[k' v'] d IH]; intros Hk; [done|].
  cbn [dict_set]. cbn [map fst] in Hk. apply not_elem_of_cons in Hk as [Hne Hk].
  rewrite decide_False by congruence. cbn [app]. f_equal. by apply IH.
Qed.

Lemma parse_value_token t ts stack x :
  value_expected x -> t <> TRBracket ->
  parse (t :: ts) (stack, x) = parse_after (open_value t stack) ts.
Proof.
  intros [-> | ->] Ht; cbn [parse parse_step]; [done|].
  destruct t; try done.
Qed.

Lemma parse_array_items items :
  Forall (fun j => forall ts stack x, value_expected x ->
            parse (tokens j ++ ts) (stack, x) = parse_after (push_value j stack) ts)
    items ->
  items <> [] ->
  forall acc ts stack x, value_expected x ->
    parse (join_tokens (map tokens items) ++ TRBracket :: ts) (FArr acc :: stack, x)
    = parse (TRBracket :: ts) (FArr (rev items ++ acc) :: stack, XCommaOrClose).
Proof.
  intros Hall Hne. induction Hall as [|j items Hj Hall IH]; [done|].
  intros acc ts stack x Hx. destruct items as [|j' items].
  - cbn [map join_tokens]. rewrite Hj by done. done.
  - cbn [map join_tokens]. cbn [map] in IH. rewrite <- app_assoc.
    rewrite Hj by done. cbn [push_value parse_after app].
    cbn [parse parse_step]. rewrite IH; [|done|by left].
    cbn [rev]. by rewrite <- !app_assoc.
Qed.

Lemma parse_object_members members :
  Forall (fun kv : pystr * json => forall ts stack x, value_expected x ->
            parse (tokens (snd kv) ++ ts) (stack, x)
            = parse_after (push_value (snd kv) stack) ts)
    members ->
  members <> [] ->
  forall acc ts stack x, key_expected x ->
    NoDup (map fst (acc ++ members)) ->
    parse (join_tokens (map member_tokens members) ++ TRBrace :: ts)
      (FObj acc None :: stack, x)
    = parse (TRBrace :: ts) (FObj (acc ++ members) None :: stack, XCommaOrClose).
Proof.
  intros Hall Hne. induction Hall as [|[k v] members Hkv Hall IH]; [done|].
  intros acc ts stack x Hx Hnd.
  assert (parse_step (TScalar (JStr k)) (FObj acc None :: stack, x)
          = Some (FObj acc (Some k) :: stack, XColon)) as Hkey.
  { by destruct Hx as [-> | ->]. }
  assert (k ∉ map fst acc) as Hfresh.
  { rewrite map_app in Hnd. apply NoDup_app in Hnd as (_ & Hd & _).
    intros Hin. apply (Hd k Hin). cbn. left. }
  cbn [snd] in Hkv.
  destruct members as [|m members].
  - cbn [map join_tokens member_tokens app].
    cbn [parse]. rewrite Hkey. cbn [parse parse_step].
    rewrite Hkv by (by left). cbn [push_value parse_after].
    by rewrite dict_set_fresh.
  - cbn [map join_tokens member_tokens]. cbn [map] in IH.
    cbn [app parse]. rewrite Hkey. cbn [parse parse_step].
    rewrite <- app_assoc. rewrite Hkv by (by left).
    cbn [push_value parse_after app]. cbn [parse parse_step].
    rewrite dict_set_fresh by done.
    rewrite IH; [|done|by right|by rewrite <- app_assoc].
    by rewrite <- app_assoc.
Qed.

Lemma tokens_head j : exists t ts, tokens j = t :: ts /\ t <> TRBracket.
Proof. destruct j; cbn [tokens]; eexists _, _; (split; [reflexivity|done]). Qed.

Lemma parse_tokens j :
  plainb j = true ->
  forall ts stack x, value_expected x ->
    parse (tokens j ++ ts) (stack, x) = parse_after (push_value j stack) ts.
Proof.
  induction j as [|b|z|l|s|items IH|members IH] using json_nested_ind;
    intros Hp ts stack x Hx;
    try (cbn [tokens app]; by rewrite parse_value_token).
  - cbn [plainb] in Hp. cbn [tokens app].
    rewrite parse_value_token by done. cbn [open_value parse_after].
    destruct items as [|j items].
    + cbn [map join_tokens app]. cbn [parse parse_step]. cbn [rev].
      by destruct (push_value (JArr []) stack).
    + set (its := j :: items) in *.
      rewrite <- app_assoc. cbn [app].
      rewrite parse_array_items; [| |done|by right].
      * cbn [parse parse_step]. rewrite app_nil_r, rev_involutive.
        by destruct (push_value (JArr its) stack).
      * apply Forall_forall. intros y Hy. rewrite Forall_forall in IH.
        apply IH; [done|]. rewrite forallb_forall in Hp. apply Hp.
        by apply list_elem_of_In.
  - cbn [plainb] in Hp. apply andb_prop in Hp as [Hnd Hp].
    apply bool_decide_eq_true in Hnd. cbn [tokens app].
    rewrite parse_value_token by done. cbn [open_value parse_after].
    destruct members as [|m members].
    + cbn [map join_tokens app]. cbn [parse parse_step].
      by destruct (push_value (JObj []) stack).
    + set (ms := m :: members) in *.
      change (map (fun kv : pystr * json =>
                     let (k, v) := kv in TScalar (JStr k) :: TColon :: tokens v) ms)
        with (map member_tokens ms).
      rewrite <- app_assoc. cbn [app].
      rewrite parse_object_members; [| |done|by left|done].
      * cbn [parse parse_step app].
        by destruct (push_value (JObj ms) stack).
      * apply Forall_forall. intros [k v] Hkv. rewrite Forall_forall in IH.
        apply (IH (k, v) Hkv). rewrite forallb_forall in Hp.
        specialize (Hp (k, v) (proj1 (list_elem_of_In _ _) Hkv)).
        by apply andb_prop in Hp as [_ Hv].
Qed.

Lemma loads_dumps j : plainb j = true -> loads (dumps j) = Some j.
Proof.
  intros Hp. unfold loads, dumps.
  pose proof (lex_encode j Hp 0%nat [] [] I eq_refl) as Hlex.
  rewrite !app_nil_r in Hlex. rewrite Hlex.
  pose proof (parse_tokens j Hp [] [] XValue (or_introl eq_refl)) as Hparse.
  rewrite app_nil_r in Hparse. by rewrite Hparse.
Qed.

(** ** Saving, starting, the dialogs and the slots *)

(** *** What is saved can be loaded *)

(** X1.  What [save_config] writes, [load_config] reads back: for a
    configuration made of [null], booleans, integers, strings of Unicode
    scalar values, lists and dictionaries, loading after saving returns that
    same configuration. *)
Theorem load_config_after_save data st :
  plainb data = true ->
  load_config (exec (save_config data) st)
  = (Return data, exec (save_config data) st).
Proof.
  intros Hp. unfold exec. rewrite save_config_eq. cbn [snd].
  unfold load_config. run_m. rewrite lookup_insert_eq. cbn.
  by rewrite loads_dumps.
Qed.

Lemma load_config_after_save_witness :
  load_config (exec (save_config (saved_data running_home)) running_home)
  = (Return (saved_data running_home),
     exec (save_config (saved_data running_home)) running_home).
Proof.
  apply (load_config_after_save (saved_data running_home) running_home).
  vm_compute. reflexivity.
Defined.

Lemma to_dict_plain c : plainb (to_dict c) = text_connection c.
Proof.
  unfold to_dict, text_connection. cbn [plainb forallb map fst].
  replace (bool_decide (NoDup [py "name"; py "url"; py "arguments"])) with true
    by (symmetry; vm_compute; reflexivity).
  change (textb (py "name")) with true. change (textb (py "url")) with true.
  change (textb (py "arguments")) with true. cbn [andb].
  by rewrite andb_true_r, andb_assoc.
Qed.

Lemma saved_data_plain st :
  forallb text_connection (connections st) = true ->
  plainb (settings_data st) = true ->
  plainb (saved_data st) = true.
Proof.
  intros Hc Hs. unfold saved_data. cbn [plainb forallb map fst].
  replace (bool_decide (NoDup [py "connections"; py "settings"])) with true
    by (symmetry; vm_compute; reflexivity).
  change (textb (py "connections")) with true.
  change (textb (py "settings")) with true. rewrite Hs. cbn [andb].
  rewrite andb_true_r. rewrite forallb_forall in *. intros j Hj.
  apply in_map_iff in Hj as (c & <- & Hin). rewrite to_dict_plain. by apply Hc.
Qed.

Lemma from_dict_to_dict c :
  from_dict (to_dict c)
  = inr (mkObject (JStr (name c)) (JStr (url c)) (JStr (arguments c))).
Proof. destruct c as [n u a]. vm_compute. reflexivity. Qed.

(** X2.  [from_dict] undoes [to_dict]: the dictionary of a connection gives
    back an object whose three values are the name, the url and the
    arguments of that connection. *)
Theorem from_dict_round_trip c :
  exists o, from_dict (to_dict c) = inr o /\ as_connection o = Some c.
Proof.
  eexists. split; [apply from_dict_to_dict|]. by destruct c.
Qed.

Lemma from_dicts_to_dict conns :
  from_dicts (map to_dict conns)
  = inr (map (fun c => mkObject (JStr (name c)) (JStr (url c)) (JStr (arguments c)))
           conns).
Proof.
  induction conns as [|c conns IH]; [done|].
  cbn [map from_dicts]. by rewrite from_dict_to_dict, IH.
Qed.

Lemma as_connections_objects conns :
  as_connections
    (map (fun c => mkObject (JStr (name c)) (JStr (url c)) (JStr (arguments c)))
       conns)
  = Some conns.
Proof.
  induction conns as [|[n u a] conns IH]; [done|].
  cbn [map as_connections as_connection obj_name obj_url obj_arguments name url arguments].
  by rewrite IH.
Qed.

(** X3.  After [save_all], a new start of the program finds the same
    connections, in the same order, and the same settings, with nothing
    connected: this for connections whose fields are strings of Unicode
    scalar values and settings that are plain. *)
Theorem restart_restores_connections st ok :
  forallb text_connection (connections st) = true ->
  plainb (settings_data st) = true ->
  let fs := files (exec save_all st) in
  MainWindow_start ok fs
  = Started (MainWindow_init (connections st) (settings_data st)
               (saved_data st) ok fs).
Proof.
  intros Hc Hs fs.
  assert (fs !! CONFIG_FILE = Some (dumps (saved_data st))) as Hfile.
  { unfold fs, exec. rewrite save_all_eq. unfold saved. cbn.
    apply lookup_insert_eq. }
  unfold MainWindow_start, load_config. run_m. rewrite Hfile.
  rewrite loads_dumps by (by apply saved_data_plain).
  unfold saved_data at 1 2. cbn [json_get dict_get].
  rewrite decide_True by done. cbn [json_iter].
  rewrite from_dicts_to_dict.
  rewrite decide_False by (by vm_compute).
  rewrite decide_True by done.
  by rewrite as_connections_objects.
Qed.

Lemma restart_restores_connections_witness :
  let fs := files (exec save_all running_home) in
  MainWindow_start true fs
  = Started (MainWindow_init (connections running_home)
               (settings_data running_home) (saved_data running_home) true fs).
Proof.
  apply (restart_restores_connections running_home true); vm_compute; reflexivity.
Defined.


(** *** The text written is ASCII *)

Lemma land15 n : (N.land n 15 < 16)%N.
Proof. change 15%N with (N.ones 4). rewrite N.land_ones. by apply N.mod_lt. Qed.

Lemma hexdigit_ascii n : (n < 16)%N -> ascii_text (hexdigit n) = true.
Proof.
  intros H. apply (holds_from_spec (N.to_nat 16) (fun n => ascii_text (hexdigit n)) 0);
    [by vm_compute|lia].
Qed.

Lemma hex4_ascii n : forallb ascii_text (hex4 n) = true.
Proof.
  unfold hex4. cbn [forallb]. by rewrite !hexdigit_ascii by apply land15.
Qed.

Lemma escape_char_ascii c : forallb ascii_text (escape_char c) = true.
Proof.
  unfold escape_char.
  repeat match goal with
         | |- context [if (c =? ?k)%N then _ else _] => destruct (c =? k)%N; [done|]
         end.
  destruct ((32 <=? c) && (c <=? 126))%N eqn:E.
  { cbn [forallb]. unfold ascii_text. by rewrite E, orb_true_r. }
  destruct (c <? 65536)%N.
  - rewrite forallb_app. by rewrite hex4_ascii.
  - cbv zeta. rewrite !forallb_app. by rewrite !hex4_ascii.
Qed.

Lemma encode_str_ascii s : forallb ascii_text (encode_str s) = true.
Proof.
  unfold encode_str. rewrite !forallb_app. cbn [forallb].
  replace (forallb ascii_text (flat_map escape_char s)) with true; [done|].
  symmetry. induction s as [|c s IH]; [done|].
  cbn [flat_map]. by rewrite forallb_app, escape_char_ascii, IH.
Qed.

Lemma uint_codes_ascii d : forallb ascii_text (uint_codes d) = true.
Proof. induction d; cbn [uint_codes forallb]; [done|by rewrite IHd..]. Qed.

Lemma encode_int_ascii z : forallb ascii_text (encode_int z) = true.
Proof.
  unfold encode_int. destruct z as [|p|p]; cbn [Z.to_int NilZero.string_of_int].
  - done.
  - assert (NilZero.string_of_uint (Pos.to_uint p)
            = NilEmpty.string_of_uint (Pos.to_uint p)) as ->.
    { pose proof (DecimalPos.Unsigned.to_uint_nonnil p). by destruct (Pos.to_uint p). }
    rewrite py_string_of_uint. apply uint_codes_ascii.
  - assert (NilZero.string_of_uint (Pos.to_uint p)
            = NilEmpty.string_of_uint (Pos.to_uint p)) as ->.
    { pose proof (DecimalPos.Unsigned.to_uint_nonnil p). by destruct (Pos.to_uint p). }
    rewrite py_String, py_string_of_uint. cbn [forallb].
    by rewrite uint_codes_ascii.
Qed.

Lemma newline_indent_ascii level : forallb ascii_text (newline_indent level) = true.
Proof.
  unfold newline_indent. cbn [forallb]. change (ascii_text 10) with true. cbn [andb].
  induction level as [|n IH]; [done|].
  cbn [repeat concat]. by rewrite forallb_app, IH.
Qed.

Lemma join_items_ascii level items :
  Forall (fun x => forallb ascii_text x = true) items ->
  forallb ascii_text (join_items level items) = true.
Proof.
  induction 1 as [|x items Hx Hall IH]; [done|].
  destruct items as [|y items]; [done|].
  change (join_items level (x :: y :: items))
    with (x ++ [44%N] ++ newline_indent level ++ join_items level (y :: items)).
  rewrite !forallb_app. cbn [forallb].
  by rewrite Hx, newline_indent_ascii, IH.
Qed.

Lemma encode_ascii j :
  floatless j = true -> forall level, forallb ascii_text (Json.encode level j) = true.
Proof.
  induction j as [|b|z|l|s|items IH|members IH] using json_nested_ind;
    intros Hf level; try done.
  - by destruct b.
  - apply encode_int_ascii.
  - apply encode_str_ascii.
  - cbn [floatless] in Hf. destruct items as [|x items]; [done|].
    cbn [Json.encode]. set (its := x :: items) in *.
    rewrite !forallb_app. rewrite newline_indent_ascii, newline_indent_ascii.
    rewrite join_items_ascii; [done|].
    apply Forall_map. apply Forall_forall. intros y Hy.
    rewrite Forall_forall in IH. apply IH; [done|].
    rewrite forallb_forall in Hf. apply Hf. by apply list_elem_of_In.
  - cbn [floatless] in Hf. destruct members as [|m members]; [done|].
    cbn [Json.encode]. set (ms := m :: members) in *.
    rewrite !forallb_app. rewrite newline_indent_ascii, newline_indent_ascii.
    rewrite join_items_ascii; [done|].
    apply Forall_map. apply Forall_forall. intros [k v] Hkv.
    rewrite Forall_forall in IH. rewrite !forallb_app.
    rewrite encode_str_ascii. cbn [andb].
    change (forallb ascii_text (py ": ")) with true. cbn [andb].
    apply (IH (k, v) Hkv). rewrite forallb_forall in Hf.
    apply (Hf (k, v)). by apply list_elem_of_In.
Qed.

Lemma to_dict_floatless c : floatless (to_dict c) = true.
Proof. done. Qed.

(** X4.  Whatever the names, urls and arguments of the connections, the
    text [save_all] leaves in the configuration file holds only printable
    ASCII characters and line feeds (the settings holding no number with a
    fraction or an exponent). *)
Theorem save_all_writes_ascii st :
  floatless (settings_data st) = true ->
  exists text,
    files (exec save_all st) !! CONFIG_FILE = Some text /\
    forallb ascii_text text = true.
Proof.
  intros Hs. exists (dumps (saved_data st)). split.
  - unfold exec. rewrite save_all_eq. unfold saved. cbn. apply lookup_insert_eq.
  - apply encode_ascii. unfold saved_data. cbn [floatless forallb].
    rewrite Hs. rewrite ?andb_true_r.
    apply forallb_forall. intros j Hj.
    apply in_map_iff in Hj as (c & <- & _). apply to_dict_floatless.
Qed.

Lemma save_all_writes_ascii_witness :
  exists text,
    files (exec save_all window_cafe) !! CONFIG_FILE = Some text /\
    forallb ascii_text text = true.
Proof. apply (save_all_writes_ascii window_cafe). vm_compute. reflexivity. Defined.


(** *** Starting up *)

Lemma MainWindow_start_loaded ok (fs : gmap string pystr) text cfg :
  fs !! CONFIG_FILE = Some text -> loads text = Some cfg ->
  MainWindow_start ok fs
  = match json_get cfg (py "connections") (JArr []) with
    | inl e => Crashed (inr e)
    | inr found =>
        match json_iter found with
        | inl e => Crashed (inr e)
        | inr entries =>
            match from_dicts entries with
            | inl e => Crashed (inr e)
            | inr objects =>
                match json_get cfg (py "settings") (JObj []) with
                | inl e => Crashed (inr e)
                | inr settings =>
                    match as_connections objects with
                    | Some conns =>
                        Started (MainWindow_init conns settings cfg ok fs)
                    | None => IllTyped
                    end
                end
            end
        end
    end.
Proof.
  intros Hfs Hload. unfold MainWindow_start, load_config. run_m.
  by rewrite Hfs, Hload.
Qed.

(** X5.  With no configuration file the program starts with no
    connection and no row, the default settings, nothing connected, the label
    on Not Connected; the file is not created. *)
Theorem first_start_is_empty ok (fs : gmap string pystr) :
  fs !! CONFIG_FILE = None ->
  exists st,
    MainWindow_start ok fs = Started st /\
    connections st = [] /\
    connection_buttons st = [] /\
    settings_data st = JObj [(py "startup", JStr (py "When logged in"));
                             (py "shutoff", JStr (py "On log off"))] /\
    active_process st = None /\ active_connection_index st = None /\
    connection_status_label st = NotConnected /\
    files st = fs /\ trace st = [].
Proof.
  intros Hfs. unfold MainWindow_start, load_config. run_m. rewrite Hfs.
  eexists. split; [vm_compute; reflexivity|]. by vm_compute.
Qed.

Lemma first_start_is_empty_witness :
  exists st,
    MainWindow_start true ∅ = Started st /\
    connections st = [] /\
    connection_buttons st = [] /\
    settings_data st = JObj [(py "startup", JStr (py "When logged in"));
                             (py "shutoff", JStr (py "On log off"))] /\
    active_process st = None /\ active_connection_index st = None /\
    connection_status_label st = NotConnected /\
    files st = ∅ /\ trace st = [].
Proof. apply (first_start_is_empty true ∅). reflexivity. Defined.

(** X6.  A missing key is no error.  A configuration object without the
    key [connections] starts the program with no connection, whatever its
    settings.  One without the key [settings] starts it with empty settings,
    whatever connections it holds. *)
Theorem start_with_missing_keys ok (fs : gmap string pystr) text d :
  fs !! CONFIG_FILE = Some text -> loads text = Some (JObj d) ->
  (dict_get (py "connections") d = None ->
   MainWindow_start ok fs
   = Started (MainWindow_init []
                (default (JObj []) (dict_get (py "settings") d)) (JObj d) ok fs)) /\
  (dict_get (py "settings") d = None ->
   forall entries objects conns,
     dict_get (py "connections") d = Some (JArr entries) ->
     from_dicts entries = inr objects ->
     as_connections objects = Some conns ->
     MainWindow_start ok fs
     = Started (MainWindow_init conns (JObj []) (JObj d) ok fs)).
Proof.
  intros Hfs Hload.
  rewrite (MainWindow_start_loaded ok fs text (JObj d)) by done.
  cbn [json_get]. split.
  - intros Hkey. rewrite Hkey. cbn [json_iter from_dicts as_connections].
    by destruct (dict_get (py "settings") d).
  - intros Hkey entries objects conns Hconns Hobjects Htyped.
    rewrite Hconns, Hkey. cbn [json_iter]. by rewrite Hobjects, Htyped.
Qed.

Lemma start_with_missing_keys_witness :
  MainWindow_start true fs_empty_object
  = Started (MainWindow_init []
               (default (JObj []) (dict_get (py "settings") [])) (JObj []) true
               fs_empty_object) /\
  MainWindow_start true fs_no_settings
  = Started (MainWindow_init [home] (JObj [])
               (JObj [(py "connections", JArr [to_dict home])]) true
               fs_no_settings).
Proof.
  split.
  - apply (proj1 (start_with_missing_keys true fs_empty_object (py "{}") []
                    ltac:(vm_compute; reflexivity) ltac:(vm_compute; reflexivity))).
    vm_compute. reflexivity.
  - eapply (proj2 (start_with_missing_keys true fs_no_settings _
                     [(py "connections", JArr [to_dict home])]
                     ltac:(vm_compute; reflexivity) ltac:(vm_compute; reflexivity))
              ltac:(vm_compute; reflexivity) [to_dict home] _ [home]);
      vm_compute; reflexivity.
Defined.

Lemma from_dicts_stops pre bad post objects e :
  from_dicts pre = inr objects -> from_dict bad = inl e ->
  from_dicts (pre ++ bad :: post) = inl e.
Proof.
  revert objects. induction pre as [|c pre IH]; intros objects Hpre Hbad.
  - cbn [app from_dicts]. by rewrite Hbad.
  - cbn [app from_dicts] in *. destruct (from_dict c) as [e'|o]; [done|].
    destruct (from_dicts pre) as [e'|os]; [done|].
    by rewrite (IH os).
Qed.

Lemma from_dict_missing_key members key :
  key ∈ [py "name"; py "url"; py "arguments"] ->
  dict_get key members = None ->
  from_dict (JObj members) = inl KeyError.
Proof.
  intros Hkey Hnone. unfold from_dict, subscript.
  apply elem_of_cons in Hkey as [-> | Hkey]; [by rewrite Hnone|].
  destruct (dict_get (py "name") members); [|done].
  apply elem_of_cons in Hkey as [-> | Hkey]; [by rewrite Hnone|].
  destruct (dict_get (py "url") members); [|done].
  apply elem_of_cons in Hkey as [-> | Hkey]; [by rewrite Hnone|].
  by apply elem_of_nil in Hkey.
Qed.

(** X7.  The program does not start on a configuration whose list of
    connections has, after entries that are fine, an entry that is a
    dictionary without one of the keys [name], [url], [arguments]
    ([KeyError]) or an entry that is not a dictionary ([TypeError]). *)
Theorem start_bad_entry ok (fs : gmap string pystr) text d pre bad post objects :
  fs !! CONFIG_FILE = Some text -> loads text = Some (JObj d) ->
  dict_get (py "connections") d = Some (JArr (pre ++ bad :: post)) ->
  from_dicts pre = inr objects ->
  (forall members key,
     bad = JObj members -> key ∈ [py "name"; py "url"; py "arguments"] ->
     dict_get key members = None ->
     MainWindow_start ok fs = Crashed (inr KeyError)) /\
  ((forall members, bad <> JObj members) ->
   MainWindow_start ok fs = Crashed (inr TypeError)).
Proof.
  intros Hfs Hload Hconns Hpre.
  rewrite (MainWindow_start_loaded ok fs text (JObj d)) by done.
  cbn [json_get]. rewrite Hconns. cbn [json_iter]. split.
  - intros members key -> Hkey Hnone.
    by rewrite (from_dicts_stops pre _ post objects KeyError Hpre
                  (from_dict_missing_key members key Hkey Hnone)).
  - intros Hbad.
    assert (from_dict bad = inl TypeError) as He.
    { destruct bad; try done. by destruct (Hbad members). }
    by rewrite (from_dicts_stops pre _ post objects TypeError Hpre He).
Qed.

Lemma start_bad_entry_witness :
  MainWindow_start true fs_no_arguments = Crashed (inr KeyError) /\
  MainWindow_start true fs_string_entry = Crashed (inr TypeError).
Proof.
  split.
  - apply (proj1 (start_bad_entry true fs_no_arguments
             (pyq "{'connections': [{'name': 'a', 'url': 'b'}]}")
             [(py "connections",
               JArr [JObj [(py "name", JStr (py "a")); (py "url", JStr (py "b"))]])]
             [] (JObj [(py "name", JStr (py "a")); (py "url", JStr (py "b"))])
             [] [] ltac:(vm_compute; reflexivity) ltac:(vm_compute; reflexivity)
             ltac:(vm_compute; reflexivity) ltac:(reflexivity))
           [(py "name", JStr (py "a")); (py "url", JStr (py "b"))]
           (py "arguments")); [reflexivity| |vm_compute; reflexivity].
    do 2 right. left.
  - apply (proj2 (start_bad_entry true fs_string_entry
             (pyq "{'connections': ['a']}")
             [(py "connections", JArr [JStr (py "a")])]
             [] (JStr (py "a")) [] []
             ltac:(vm_compute; reflexivity) ltac:(vm_compute; reflexivity)
             ltac:(vm_compute; reflexivity) ltac:(reflexivity))).
    intros members. discriminate.
Defined.

(** X8.  The program does not start on a configuration file that holds
    JSON other than an object: [AttributeError] on [get]. *)
Theorem start_not_an_object ok (fs : gmap string pystr) text cfg :
  fs !! CONFIG_FILE = Some text -> loads text = Some cfg ->
  (forall d, cfg <> JObj d) ->
  MainWindow_start ok fs = Crashed (inr AttributeError).
Proof.
  intros Hfs Hload Hcfg. rewrite (MainWindow_start_loaded ok fs text cfg) by done.
  destruct cfg; try done. by destruct (Hcfg members).
Qed.

Lemma start_not_an_object_witness :
  MainWindow_start true fs_list = Crashed (inr AttributeError).
Proof.
  apply (start_not_an_object true fs_list (py "[]") (JArr []));
    [vm_compute; reflexivity..|]. intros d. discriminate.
Defined.


(** *** [str.strip()] *)

Lemma lstrip_head s c : head (lstrip s) = Some c -> Str.isspace c = false.
Proof.
  induction s as [|x s IH]; [done|]. cbn [lstrip].
  destruct (Str.isspace x) eqn:E; [done|]. cbn. by intros [= <-].
Qed.

Lemma lstrip_nil s : lstrip s = [] <-> blank s.
Proof.
  induction s as [|x s IH]; [by split; [constructor|]|].
  cbn [lstrip]. destruct (Str.isspace x) eqn:E.
  - rewrite IH. split; [by constructor|]. by inversion 1.
  - split; [done|]. inversion 1; congruence.
Qed.

Lemma lstrip_snoc l c :
  lstrip (l ++ [c])
  = match lstrip l with
    | [] => if Str.isspace c then [] else [c]
    | l' => l' ++ [c]
    end.
Proof.
  induction l as [|x l IH]; [done|]. cbn [app lstrip].
  destruct (Str.isspace x); [exact IH|done].
Qed.

Lemma rstrip_cons c r :
  rstrip (c :: r)
  = if decide (rstrip r = []) then (if Str.isspace c then [] else [c])
    else c :: rstrip r.
Proof.
  unfold rstrip. cbn [rev]. rewrite lstrip_snoc.
  destruct (lstrip (rev r)) as [|x l'] eqn:E; cbn [rev].
  - rewrite decide_True by done. by destruct (Str.isspace c).
  - rewrite decide_False by (by destruct (rev l')).
    by rewrite rev_app_distr.
Qed.

Lemma last_rev_head {A} (l : list A) : last (rev l) = head l.
Proof. destruct l as [|x l]; [done|]. cbn [rev]. apply last_snoc. Qed.

Lemma rstrip_last s c : last (rstrip s) = Some c -> Str.isspace c = false.
Proof.
  unfold rstrip. rewrite last_rev_head. apply lstrip_head.
Qed.

Lemma rstrip_head s c :
  (forall x, head s = Some x -> Str.isspace x = false) ->
  head (rstrip s) = Some c -> head s = Some c.
Proof.
  destruct s as [|x s]; [done|]. intros Hx. rewrite rstrip_cons.
  rewrite (Hx x eq_refl). by case_decide.
Qed.

Lemma rstrip_nil s : rstrip s = [] <-> blank s.
Proof.
  unfold rstrip, blank. split.
  - intros H. apply (f_equal (@rev N)) in H. rewrite rev_involutive in H.
    cbn in H. apply lstrip_nil in H. unfold blank in H.
    rewrite Forall_forall in *. intros x Hx. apply H.
    apply list_elem_of_In. apply in_rev. rewrite rev_involutive. by apply list_elem_of_In.
  - intros H. assert (lstrip (rev s) = []) as ->; [|done].
    apply lstrip_nil. unfold blank. rewrite Forall_forall in *. intros x Hx.
    apply H. apply list_elem_of_In. apply in_rev. by apply list_elem_of_In.
Qed.

Lemma lstrip_blank_iff s : blank (lstrip s) <-> blank s.
Proof.
  induction s as [|x s IH]; [done|]. cbn [lstrip].
  destruct (Str.isspace x) eqn:E; [|done].
  rewrite IH. split; [by constructor|by inversion 1].
Qed.

Lemma strip_trimmed s : trimmed (strip s).
Proof.
  unfold strip. split.
  - intros c Hc. apply (lstrip_head s). apply rstrip_head; [|done].
    apply lstrip_head.
  - apply rstrip_last.
Qed.

Lemma strip_nil s : strip s = [] <-> blank s.
Proof. unfold strip. rewrite rstrip_nil. apply lstrip_blank_iff. Qed.

Lemma split_go_lstrip s : Str.split_go [] (lstrip s) = Str.split_go [] s.
Proof.
  induction s as [|x s IH]; [done|]. cbn [lstrip].
  destruct (Str.isspace x) eqn:E; [|done]. cbn [Str.split_go]. by rewrite E.
Qed.

Lemma split_go_rstrip s cur : Str.split_go cur (rstrip s) = Str.split_go cur s.
Proof.
  revert cur. induction s as [|x s IH]; intros cur; [done|].
  rewrite rstrip_cons. case_decide as E.
  - destruct (Str.isspace x) eqn:Ex; cbn [Str.split_go]; rewrite Ex.
    + rewrite <- (IH []), E. by destruct cur.
    + by rewrite <- IH, E.
  - cbn [Str.split_go]. by rewrite !IH.
Qed.

Lemma split_strip s : Str.split (strip s) = Str.split s.
Proof.
  unfold Str.split, strip. by rewrite split_go_rstrip, split_go_lstrip.
Qed.

(** *** The dialog *)

(** X9.  Save in the dialog warns, and keeps the dialog open, exactly when
    the name or the url typed is empty or only white space.  Otherwise the
    connection it accepts has a name and a url that are not empty, and no
    field of it starts or ends with white space. *)
Theorem save_connection_accepts d :
  (save_connection d = None <-> blank (name_edit d) \/ blank (url_edit d)) /\
  (forall c, save_connection d = Some c ->
     name c <> [] /\ url c <> [] /\
     trimmed (name c) /\ trimmed (url c) /\ trimmed (arguments c)).
Proof.
  unfold save_connection. cbv zeta. split.
  - rewrite <- !strip_nil.
    destruct (decide (strip (name_edit d) = [])) as [Hn|Hn];
      destruct (decide (strip (url_edit d) = [])) as [Hu|Hu];
      rewrite ?(bool_decide_eq_true_2 _ Hn), ?(bool_decide_eq_false_2 _ Hn),
        ?(bool_decide_eq_true_2 _ Hu), ?(bool_decide_eq_false_2 _ Hu);
      cbn [orb]; split; try done; auto. intros [?|?]; done.
  - intros c. case_bool_decide as Hn; [done|]. case_bool_decide as Hu; [done|].
    cbn [orb]. intros [= <-]. cbn [name url arguments].
    repeat split; try done; apply strip_trimmed.
Qed.

Lemma save_connection_accepts_witness :
  save_connection nameless_dialog = None /\
  name home <> [] /\ url home <> [] /\
  trimmed (name home) /\ trimmed (url home) /\ trimmed (arguments home).
Proof.
  split.
  - apply (proj1 (save_connection_accepts nameless_dialog)). left.
    repeat constructor.
  - apply (proj2 (save_connection_accepts
                    (type_fields (py " home ") (py "wss://h.example:9000 ")
                       (py "socks") (AddConnectionDialog_init None None)))
             home).
    vm_compute. reflexivity.
Defined.

(** X10.  For a connection accepted by the dialog, the command line is
    [chisel], [client], the url typed without the white space around it, as
    one argument, then the tokens of the arguments as they were typed: the
    white space around them changes nothing. *)
Theorem dialog_command_line d c :
  save_connection d = Some c ->
  chisel_cmd c
  = [py "chisel"; py "client"; strip (url_edit d)] ++ Str.split (args_edit d).
Proof.
  unfold save_connection. cbv zeta.
  destruct (_ || _); [done|]. intros [= <-].
  unfold chisel_cmd. cbn [url arguments]. by rewrite split_strip.
Qed.

Lemma dialog_command_line_witness :
  chisel_cmd (mkConnection (py "home") (py "wss://h.example:9000")
                (py "socks  --keepalive 5s"))
  = [py "chisel"; py "client"; strip (url_edit typed_dialog)]
    ++ Str.split (args_edit typed_dialog).
Proof.
  apply (dialog_command_line typed_dialog). vm_compute. reflexivity.
Defined.


(** *** Connecting and disconnecting *)

(** X11.  Disconnect on a row that is not the active one changes nothing.
    On the active row, with the process running, it polls, terminates and
    waits for the process, once each, leaves no handle and no active index,
    enables Connect on every row; after that any Disconnect changes
    nothing. *)
Theorem disconnect_connection_stops st :
  (forall j, active_connection_index st <> Some j ->
     disconnect_connection j st = (Return tt, st)) /\
  (forall i p, active_connection_index st = Some i ->
     active_process st = Some p -> procs st !! p = Some true ->
     let st' := exec (disconnect_connection i) st in
     disconnect_connection i st = (Return tt, st') /\
     trace st' = trace st ++ [EPoll p true; ETerminate p; EWait p] /\
     active_process st' = None /\
     active_connection_index st' = None /\
     procs st' = <[p := false]> (procs st) /\
     connection_buttons st' = projection None (length (connection_buttons st)) /\
     forall j, disconnect_connection j st' = (Return tt, st')).
Proof.
  assert (forall s j, active_connection_index s <> Some j ->
            disconnect_connection j s = (Return tt, s)) as Hother.
  { intros s j Hj. unfold disconnect_connection. run_m.
    by rewrite bool_decide_eq_false_2. }
  split; [apply Hother|].
  intros i p Hi Hp Hrun st'.
  assert (disconnect_connection i st
          = (Return tt,
             set_connection_buttons
               (projection None (length (connection_buttons st)))
               (set_active_connection_index None (stopped st)))) as Heq.
  { unfold disconnect_connection. run_m. rewrite Hi.
    rewrite bool_decide_eq_true_2 by done. cbn.
    rewrite stop_chisel_process_eq. cbn. rewrite update_buttons_state_eq. cbn.
    unfold stopped. rewrite Hp. by rewrite bool_decide_eq_true_2. }
  unfold st', exec. rewrite Heq. cbn [snd]. unfold stopped. rewrite Hp.
  rewrite bool_decide_eq_true_2 by done. cbn.
  repeat split; try done; try (by rewrite <- !app_assoc).
Qed.

Lemma disconnect_connection_stops_witness :
  disconnect_connection 1 running_home = (Return tt, running_home) /\
  let st' := exec (disconnect_connection 0) running_home in
  trace st' = trace running_home
              ++ [EPoll 0%nat true; ETerminate 0%nat; EWait 0%nat] /\
  active_process st' = None /\
  disconnect_connection 0 st' = (Return tt, st').
Proof.
  destruct (disconnect_connection_stops running_home) as [Hother Hactive].
  split.
  - apply Hother. vm_compute. discriminate.
  - destruct (Hactive 0 0%nat ltac:(vm_compute; reflexivity)
                ltac:(vm_compute; reflexivity) ltac:(vm_compute; reflexivity))
      as (_ & Ht & Hp & _ & _ & _ & Hagain).
    split; [exact Ht|]. split; [exact Hp|]. apply Hagain.
Defined.

(** X12.  Connect with nothing active, on an index that names a
    connection, returns normally whether or not [chisel] can be started.  It
    calls [Popen] once with the command line of that connection.  If that
    succeeds the new process is held and the index is active; if it fails an
    error box is shown and nothing is active. *)
Theorem connect_connection_from_idle i conn st :
  active_connection_index st = None ->
  py_index (connections st) i = Some conn ->
  let st' := exec (connect_connection i) st in
  connect_connection i st = (Return tt, st') /\
  trace st' = trace st
              ++ EPopen (chisel_cmd conn)
                   (if popen_ok st then Some (length (procs st)) else None)
                 :: (if popen_ok st then [] else [ECritical]) /\
  (if popen_ok st
   then active_process st' = Some (length (procs st)) /\
        active_connection_index st' = Some i /\
        procs st' = procs st ++ [true]
   else active_process st' = None /\
        active_connection_index st' = None /\
        procs st' = procs st) /\
  connection_buttons st'
  = projection (active_connection_index st') (length (connection_buttons st)).
Proof.
  intros Hi Hconn st'.
  assert (connect_connection i st
          = (Return tt,
             set_connection_buttons
               (projection (if popen_ok st then Some i else None)
                  (length (connection_buttons st)))
               (started conn (set_active_connection_index (Some i) st)))) as Heq.
  { unfold connect_connection, connect_stop_other, connect_start, getitem. run_m.
    rewrite Hi. cbn. rewrite Hi. rewrite bool_decide_eq_true_2 by done. cbn.
    rewrite Hconn. cbn. rewrite start_chisel_eq. cbn.
    rewrite update_buttons_state_eq. unfold started. cbn.
    by destruct (popen_ok st). }
  unfold st', exec. rewrite Heq. cbn [snd]. unfold started. cbn.
  destruct (popen_ok st); cbn; repeat split; try done; by rewrite <- ?app_assoc.
Qed.

Lemma connect_connection_from_idle_witness :
  let st := set_popen_ok false window0 in
  let st' := exec (connect_connection 1) st in
  connect_connection 1 st = (Return tt, st') /\
  trace st' = trace st
              ++ EPopen (chisel_cmd office)
                   (if popen_ok st then Some (length (procs st)) else None)
                 :: (if popen_ok st then [] else [ECritical]) /\
  (if popen_ok st
   then active_process st' = Some (length (procs st)) /\
        active_connection_index st' = Some 1 /\
        procs st' = procs st ++ [true]
   else active_process st' = None /\
        active_connection_index st' = None /\
        procs st' = procs st) /\
  connection_buttons st'
  = projection (active_connection_index st') (length (connection_buttons st)).
Proof.
  apply (connect_connection_from_idle 1 office (set_popen_ok false window0));
    vm_compute; reflexivity.
Defined.

(** X13.  Connect with nothing active, on an index that names no
    connection, raises [IndexError]: nothing is started, but the index is
    left as the active index, with no process. *)
Theorem connect_connection_out_of_range i st :
  active_connection_index st = None ->
  py_index (connections st) i = None ->
  connect_connection i st
  = (Raise IndexError, set_active_connection_index (Some i) st).
Proof.
  intros Hi Hconn.
  unfold connect_connection, connect_stop_other, connect_start, getitem. run_m.
  rewrite Hi. cbn. rewrite Hi. rewrite bool_decide_eq_true_2 by done. cbn.
  by rewrite Hconn.
Qed.

Lemma connect_connection_out_of_range_witness :
  connect_connection 2 window0
  = (Raise IndexError, set_active_connection_index (Some 2) window0).
Proof.
  apply (connect_connection_out_of_range 2 window0); vm_compute; reflexivity.
Defined.

Lemma connect_connection_active i st :
  row_exists i st -> Inv st ->
  active_connection_index (exec (connect_connection i) st) = Some i \/
  active_connection_index (exec (connect_connection i) st) = None.
Proof.
  intros Hrow HI. pose proof (inv_rows st HI) as Hrows.
  unfold row_exists in Hrow. rewrite Hrows in Hrow.
  destruct (py_index_in_range _ _ Hrow) as [conn Hconn].
  unfold exec, connect_connection, connect_stop_other, connect_start, getitem. run_m.
  destruct (stopped_fields st) as (S1 & S2 & S3 & S4 & S5 & S6).
  destruct (active_connection_index st) as [a|] eqn:Ha; cbn.
  - case_bool_decide as Hai; cbn.
    + rewrite stop_chisel_process_eq. cbn. rewrite bool_decide_eq_true_2 by done. cbn.
      rewrite S3, Hconn. cbn. rewrite start_chisel_eq. cbn. rewrite update_buttons_state_eq. cbn.
      unfold started. cbn. destruct (popen_ok (stopped st)); cbn; auto.
    + rewrite Ha. cbn. rewrite bool_decide_eq_false_2 by (intros ?; congruence). cbn.
      rewrite update_buttons_state_eq. cbn. left. by rewrite Ha.
  - rewrite Ha. rewrite bool_decide_eq_true_2 by done. cbn. rewrite Hconn. cbn.
    rewrite start_chisel_eq. cbn. rewrite update_buttons_state_eq. cbn.
    unfold started. cbn. destruct (popen_ok st); cbn; auto.
Qed.

(** X14.  In a reachable state, Connect on a row and then Disconnect on
    the same row leave nothing active and no process running, whether the
    start succeeded or not and whatever ran before. *)
Theorem connect_then_disconnect i st :
  reachable st -> row_exists i st ->
  let st' := exec (disconnect_connection i) (exec (connect_connection i) st) in
  active_process st' = None /\
  active_connection_index st' = None /\
  (forall p, procs st' !! p <> Some true).
Proof.
  intros Hreach Hrow st'. pose proof (reachable_inv st Hreach) as HI.
  pose proof (inv_connect i st HI Hrow) as HI1.
  pose proof (inv_disconnect i _ HI1) as HI2. fold st' in HI2.
  assert (active_connection_index st' = None) as Hidle.
  { unfold st', exec at 1, disconnect_connection. run_m.
    destruct (connect_connection_active i st Hrow HI) as [Ha|Ha]; rewrite Ha.
    - rewrite bool_decide_eq_true_2 by done. cbn.
      rewrite stop_chisel_process_eq. cbn. by rewrite update_buttons_state_eq.
    - rewrite bool_decide_eq_false_2 by done. done. }
  destruct HI2 as [H1 H2 _]. split; [by apply H1|]. split; [done|].
  intros p Hp. apply H2 in Hp. rewrite (proj1 H1 Hidle) in Hp. done.
Qed.

Lemma connect_then_disconnect_witness :
  let st' := exec (disconnect_connection 1) (exec (connect_connection 1) running_home) in
  active_process st' = None /\
  active_connection_index st' = None /\
  (forall p, procs st' !! p <> Some true).
Proof.
  apply (connect_then_disconnect 1 running_home); [apply running_home_reachable|].
  vm_compute. split; [discriminate|reflexivity].
Defined.

(** *** The timer *)

Lemma tick_only_polls st :
  let st' := exec update_connection_status st in
  procs st' = procs st /\ files st' = files st /\
  connections st' = connections st /\ settings_data st' = settings_data st /\
  exists polls,
    trace st' = trace st ++ polls /\
    Forall (fun e => exists p running, e = EPoll p running) polls.
Proof.
  unfold exec, update_connection_status, poll, getitem. run_m.
  destruct (active_connection_index st) as [a|] eqn:Ha; cbn;
    [destruct (active_process st) as [p|] eqn:Hp; cbn|].
  2,3: repeat split; exists []; by rewrite app_nil_r.
  case_bool_decide as Hrun; cbn.
  - destruct (py_index (connections st) a) as [c|]; cbn;
      repeat split; exists [EPoll p true]; split; try done;
      repeat constructor; eauto.
  - rewrite stop_chisel_process_eq. cbn. rewrite update_buttons_state_eq. cbn.
    unfold stopped. cbn. rewrite Hp. rewrite bool_decide_eq_false_2 by done. cbn.
    repeat split. exists [EPoll p false; EPoll p false].
    split; [by rewrite <- app_assoc|]. repeat constructor; eauto.
Qed.

(** X15.  The timer slot only polls: in any state it leaves the table of
    processes, the files, the connections and the settings as they are, and
    adds nothing but polls to the trace; it starts nothing, terminates
    nothing and writes nothing. *)
Theorem update_connection_status_only_polls st :
  let st' := exec update_connection_status st in
  procs st' = procs st /\ files st' = files st /\
  connections st' = connections st /\ settings_data st' = settings_data st /\
  exists polls,
    trace st' = trace st ++ polls /\
    Forall (fun e => exists p running, e = EPoll p running) polls.
Proof. apply tick_only_polls. Qed.

(** X16.  The timer slot, when the process held still runs: the label
    shows the name of the connection at the active index, and nothing else
    changes.  When the active index names no connection it raises
    [IndexError], the label keeping its text. *)
Theorem update_connection_status_running i p st :
  active_connection_index st = Some i ->
  active_process st = Some p ->
  procs st !! p = Some true ->
  update_connection_status st
  = match py_index (connections st) i with
    | Some conn =>
        (Return tt,
         set_connection_status_label (ConnectedTo (name conn))
           (log (EPoll p true) st))
    | None => (Raise IndexError, log (EPoll p true) st)
    end.
Proof.
  intros Hi Hp Hrun. unfold update_connection_status, poll, getitem. run_m.
  rewrite Hi, Hp. cbn. rewrite bool_decide_eq_true_2 by done. cbn.
  by destruct (py_index (connections st) i).
Qed.

Lemma update_connection_status_running_witness :
  update_connection_status running_home
  = match py_index (connections running_home) 0 with
    | Some conn =>
        (Return tt,
         set_connection_status_label (ConnectedTo (name conn))
           (log (EPoll 0%nat true) running_home))
    | None => (Raise IndexError, log (EPoll 0%nat true) running_home)
    end.
Proof.
  apply (update_connection_status_running 0 0%nat running_home);
    vm_compute; reflexivity.
Defined.


(** *** Rows that move *)

(** X17.  Deleting the active row or a row above it leaves the active index
    and the process handle as they were, so the active index then names the
    connection that came after the one it named, or none if it named the
    last. *)
Theorem delete_connection_shifts_rows index a st :
  active_connection_index st = Some a ->
  0 <= index <= a -> a < Z.of_nat (length (connections st)) ->
  let st' := exec (delete_connection index) st in
  active_connection_index st' = Some a /\
  active_process st' = active_process st /\
  py_index (connections st') a = py_index (connections st) (a + 1).
Proof.
  intros Ha Hi Hlen st'. unfold st', exec. rewrite delete_connection_eq.
  rewrite bool_decide_eq_true_2 by lia. cbn [snd].
  unfold refreshed, saved. cbn. split; [done|]. split; [done|].
  unfold py_index. rewrite !bool_decide_eq_true_2 by lia.
  rewrite list_lookup_delete_ge by lia. f_equal. lia.
Qed.

Lemma delete_connection_shifts_rows_witness :
  let st' := exec (delete_connection 0) running_home in
  active_connection_index st' = Some 0 /\
  active_process st' = active_process running_home /\
  py_index (connections st') 0 = py_index (connections running_home) (0 + 1).
Proof.
  apply (delete_connection_shifts_rows 0 0 running_home);
    vm_compute; first [reflexivity | split; discriminate].
Defined.

(** X23.  For an index in range, [delete_connection] removes the
    connection at that index, saves the configuration and renders the rows
    again, one pair of buttons for each connection left, their flags those of
    the active index as it was.  It stops nothing: no process is polled,
    terminated or waited for, the process handle and the active index are
    left as they were, and the status label is not touched. *)
Theorem delete_connection_in_range index st :
  0 <= index < Z.of_nat (length (connections st)) ->
  exists st',
    delete_connection index st = (Return tt, st') /\
    connections st' = delete (Z.to_nat index) (connections st) /\
    connection_buttons st'
    = projection (active_connection_index st) (length (connections st')) /\
    length (connection_buttons st') = (length (connections st) - 1)%nat /\
    files st' !! CONFIG_FILE = Some (dumps (saved_data st')) /\
    trace st' = trace st ++ [EOpenW CONFIG_FILE;
                             EWrite CONFIG_FILE (dumps (saved_data st'))] /\
    active_process st' = active_process st /\
    active_connection_index st' = active_connection_index st /\
    procs st' = procs st /\
    connection_status_label st' = connection_status_label st.
Proof.
  intros Hrange. rewrite delete_connection_eq.
  rewrite bool_decide_eq_true_2 by done.
  eexists. split; [reflexivity|]. unfold refreshed, saved, saved_data. cbn.
  split; [done|]. split; [done|]. split.
  { rewrite projection_length, length_delete; [done|].
    apply lookup_lt_is_Some_2. lia. }
  split; [apply lookup_insert_eq|]. split; [by rewrite <- app_assoc|done].
Qed.

Lemma delete_connection_in_range_witness :
  exists st',
    delete_connection 1 running_home = (Return tt, st') /\
    connections st' = delete (Z.to_nat 1) (connections running_home) /\
    connection_buttons st'
    = projection (active_connection_index running_home)
        (length (connections st')) /\
    length (connection_buttons st') = (length (connections running_home) - 1)%nat /\
    files st' !! CONFIG_FILE = Some (dumps (saved_data st')) /\
    trace st' = trace running_home
                ++ [EOpenW CONFIG_FILE;
                    EWrite CONFIG_FILE (dumps (saved_data st'))] /\
    active_process st' = active_process running_home /\
    active_connection_index st' = active_connection_index running_home /\
    procs st' = procs running_home /\
    connection_status_label st' = connection_status_label running_home.
Proof.
  apply (delete_connection_in_range 1 running_home). vm_compute.
  split; [discriminate|reflexivity].
Defined.

(** *** Adding and editing *)

(** X18.  A connection accepted in the Add dialog is appended: the rows
    before keep their place, the file holds the new list, there is one more
    pair of buttons, and the process handle, the active index and the
    processes are untouched.  A cancelled dialog changes nothing. *)
Theorem add_connection_dialog_appends conn st :
  let st' := exec (add_connection_dialog (Some conn)) st in
  add_connection_dialog (Some conn) st = (Return tt, st') /\
  connections st' = connections st ++ [conn] /\
  (forall i, (i < length (connections st))%nat ->
             connections st' !! i = connections st !! i) /\
  files st' !! CONFIG_FILE = Some (dumps (saved_data st')) /\
  connection_buttons st'
  = projection (active_connection_index st) (S (length (connections st))) /\
  active_process st' = active_process st /\
  active_connection_index st' = active_connection_index st /\
  procs st' = procs st /\
  add_connection_dialog None st = (Return tt, st).
Proof.
  unfold exec. rewrite !add_connection_dialog_eq. cbn [snd].
  unfold refreshed, saved, saved_data. cbn. repeat split.
  - intros i Hi. by rewrite lookup_app_l.
  - apply lookup_insert_eq.
  - rewrite length_app. cbn. f_equal. lia.
Qed.

Lemma add_connection_dialog_appends_witness :
  let st' := exec (add_connection_dialog (Some vault)) running_home in
  connections st' = [home; office; vault] /\
  connections st' !! 1%nat = connections running_home !! 1%nat.
Proof.
  destruct (add_connection_dialog_appends vault running_home)
    as (_ & Hc & Hkeep & _).
  split; [exact Hc|]. apply Hkeep. vm_compute. lia.
Defined.

Lemma open_connection_settings_no_row index result st :
  py_index (connections st) index = None ->
  open_connection_settings index result st = (Raise IndexError, st).
Proof.
  intros Hi. unfold open_connection_settings, getitem. run_m. by rewrite Hi.
Qed.

(** X19.  The dialog of a row.  On an index that names no connection
    [open_connection_settings] raises [IndexError] and changes nothing.  On a
    row that exists, Save replaces the connection of that row and no other:
    the list keeps its length and its other rows, the file holds the new
    list, the process handle, the active index and the processes are
    untouched. *)
Theorem open_connection_settings_edits_one_row index edited st :
  (py_index (connections st) index = None ->
   forall result,
     open_connection_settings index result st = (Raise IndexError, st)) /\
  (forall old, 0 <= index -> py_index (connections st) index = Some old ->
   let st' := exec (open_connection_settings index (DlgSave edited)) st in
   open_connection_settings index (DlgSave edited) st = (Return tt, st') /\
   length (connections st') = length (connections st) /\
   py_index (connections st') index = Some edited /\
   (forall j, j <> Z.to_nat index -> connections st' !! j = connections st !! j) /\
   files st' !! CONFIG_FILE = Some (dumps (saved_data st')) /\
   active_process st' = active_process st /\
   active_connection_index st' = active_connection_index st /\
   procs st' = procs st).
Proof.
  split; [intros Hi result; by apply open_connection_settings_no_row|].
  intros old H0 Hi st'.
  assert (open_connection_settings index (DlgSave edited) st
          = (Return tt,
             refreshed (<[py_position (connections st) index := edited]>
                          (connections st)) st)) as Heq.
  { unfold open_connection_settings, getitem. run_m. rewrite Hi. cbn.
    rewrite save_all_eq. cbn. by rewrite render_connections_eq. }
  unfold st', exec. rewrite Heq. cbn [snd].
  unfold refreshed, saved, saved_data, py_position. cbn.
  unfold py_index in *. rewrite !bool_decide_eq_true_2 in * by done.
  repeat split.
  - by rewrite length_insert.
  - apply list_lookup_insert_eq. by eapply lookup_lt_Some.
  - intros j Hj. by rewrite list_lookup_insert_ne.
  - apply lookup_insert_eq.
Qed.

Lemma open_connection_settings_edits_one_row_witness :
  open_connection_settings 2 DlgCancel running_home
  = (Raise IndexError, running_home) /\
  let st' := exec (open_connection_settings 1 (DlgSave vault)) running_home in
  connections st' = [home; vault] /\
  active_process st' = active_process running_home.
Proof.
  destruct (open_connection_settings_edits_one_row 2 vault running_home)
    as [Hnone _].
  destruct (open_connection_settings_edits_one_row 1 vault running_home)
    as [_ Hsave].
  split; [apply Hnone; vm_compute; reflexivity|].
  destruct (Hsave office ltac:(lia) ltac:(vm_compute; reflexivity))
    as (_ & _ & _ & _ & _ & Hp & _).
  split; [vm_compute; reflexivity|exact Hp].
Defined.

(** *** The file follows the list *)

Lemma in_sync_refreshed conns st : in_sync (refreshed conns st).
Proof. unfold in_sync, refreshed, saved, saved_data. cbn. apply lookup_insert_eq. Qed.

Lemma refreshed_or_same_delete index st :
  exec (delete_connection index) st = st \/
  exists conns, exec (delete_connection index) st = refreshed conns st.
Proof.
  unfold exec. rewrite delete_connection_eq. cbn [snd]. case_bool_decide; eauto.
Qed.

(** What a command leaves of the list and the file. *)
Lemma command_saves_or_keeps c st :
  (exists conns, exec (run c) st = refreshed conns st) \/
  (connections (exec (run c) st) = connections st /\
   settings_data (exec (run c) st) = settings_data st /\
   files (exec (run c) st) = files st).
Proof.
  destruct c as [i|i|i|r|i r|]; unfold run.
  - right. unfold exec, connect_connection, connect_stop_other, connect_start, getitem.
    run_m. destruct (stopped_fields st) as (S1 & S2 & S3 & S4 & S5 & S6).
    assert (settings_data (stopped st) = settings_data st
            /\ files (stopped st) = files st) as [S7 S8].
    { unfold stopped. destruct (active_process st); [case_bool_decide|]; done. }
    destruct (bool_decide (active_connection_index st <> None)
              && bool_decide (active_connection_index st <> Some i)); cbn.
    + rewrite stop_chisel_process_eq. cbn.
      case_bool_decide; cbn;
        [|rewrite update_buttons_state_eq; cbn; by rewrite S3, S7, S8].
      destruct (py_index (connections (stopped st)) i); cbn;
        [|by rewrite S3, S7, S8].
      rewrite start_chisel_eq. cbn. rewrite update_buttons_state_eq. cbn.
      unfold started. cbn. rewrite S5.
      destruct (popen_ok st); cbn; by rewrite S3, S7, S8.
    + case_bool_decide; cbn; [|by rewrite update_buttons_state_eq].
      destruct (py_index (connections st) i); cbn; [|done].
      rewrite start_chisel_eq. cbn. rewrite update_buttons_state_eq. cbn.
      unfold started. cbn. destruct (popen_ok st); cbn; done.
  - right. unfold exec, disconnect_connection. run_m.
    case_bool_decide; cbn; [|done].
    rewrite stop_chisel_process_eq. cbn. rewrite update_buttons_state_eq. cbn.
    unfold stopped. destruct (active_process st); [case_bool_decide|]; done.
  - destruct (refreshed_or_same_delete i st) as [->|[conns ->]]; eauto.
  - unfold exec. rewrite add_connection_dialog_eq. cbn [snd].
    destruct r; eauto.
  - unfold exec, open_connection_settings, getitem. run_m.
    destruct (py_index (connections st) i); cbn; [|by right].
    destruct r; cbn.
    + rewrite save_all_eq. cbn. rewrite render_connections_eq. left. by eexists.
    + rewrite delete_connection_eq. cbn. case_bool_decide; eauto.
    + by right.
  - right. pose proof (tick_only_polls st) as H.
    cbv zeta in H. tauto.
Qed.


(** X20.  The file follows the list: a step that changes the list of
    connections leaves the configuration file holding exactly the new list
    and the settings, and once the file holds them every step keeps it
    so. *)
Theorem step_keeps_in_sync st st' :
  step st st' ->
  in_sync st \/ connections st' <> connections st ->
  in_sync st'.
Proof.
  intros Hstep Hor. destruct Hstep as [c st _|p st|ok st].
  - destruct (command_saves_or_keeps c st) as [[conns ->]|(Hc & Hs & Hf)].
    + apply in_sync_refreshed.
    + destruct Hor as [Hsync|Hne]; [|done].
      unfold in_sync, saved_data in *. by rewrite Hc, Hs, Hf.
  - destruct Hor as [Hsync|Hne]; done.
  - destruct Hor as [Hsync|Hne]; done.
Qed.

Lemma step_keeps_in_sync_witness :
  in_sync (exec (run (Add (Some vault))) running_home).
Proof.
  apply (step_keeps_in_sync running_home).
  - by apply (step_command (Add (Some vault))).
  - right. vm_compute. discriminate.
Defined.

(** *** What is started *)

Lemma py_index_elem {A} (l : list A) i x : py_index l i = Some x -> x ∈ l.
Proof.
  unfold py_index. repeat case_bool_decide; try done;
    intros Hx; by eapply list_elem_of_lookup_2.
Qed.

Lemma trace_adds_refl conns st : trace_adds conns st st.
Proof. exists []. by rewrite app_nil_r. Qed.

Lemma trace_adds_trans conns st1 st2 st3 :
  trace_adds conns st1 st2 -> trace_adds conns st2 st3 -> trace_adds conns st1 st3.
Proof.
  intros (e1 & H1 & G1) (e2 & H2 & G2). exists (e1 ++ e2). split.
  - by rewrite H2, H1, app_assoc.
  - by apply Forall_app.
Qed.

Lemma trace_adds_same conns st st' : trace st' = trace st -> trace_adds conns st st'.
Proof. intros H. exists []. by rewrite app_nil_r. Qed.

Lemma trace_adds_stopped conns st : trace_adds conns st (stopped st).
Proof.
  unfold stopped. destruct (active_process st) as [p|]; [|by apply trace_adds_same].
  case_bool_decide.
  - exists [EPoll p true; ETerminate p; EWait p]. cbn.
    split; [by rewrite <- !app_assoc|]. by repeat constructor.
  - exists [EPoll p false]. by repeat constructor.
Qed.

Lemma trace_adds_started conns conn st :
  conn ∈ conns -> trace_adds conns st (started conn st).
Proof.
  intros Hin. unfold started. destruct (popen_ok st); cbn.
  - exists [EPopen (chisel_cmd conn) (Some (length (procs st)))].
    split; [done|]. repeat constructor. by exists conn.
  - exists [EPopen (chisel_cmd conn) None; ECritical]. cbn.
    split; [by rewrite <- !app_assoc|]. repeat constructor. by exists conn.
Qed.

Lemma trace_adds_refreshed conns' conns st : trace_adds conns' st (refreshed conns st).
Proof.
  exists [EOpenW CONFIG_FILE;
          EWrite CONFIG_FILE (dumps (saved_data (set_connections conns st)))].
  unfold refreshed, saved. cbn. split; [by rewrite <- !app_assoc|].
  by repeat constructor.
Qed.

Lemma trace_adds_eq conns st st1 st2 :
  trace st2 = trace st1 -> trace_adds conns st st1 -> trace_adds conns st st2.
Proof. intros H (evs & H1 & G). exists evs. by rewrite H. Qed.

Ltac adds_by lemma := eapply trace_adds_eq; [|apply lemma]; done.

Lemma connections_started conn st : connections (started conn st) = connections st.
Proof. unfold started. by destruct (popen_ok st). Qed.

(** Connect starts the connection of the row clicked, and keeps the list. *)
Lemma trace_adds_connect i st :
  trace_adds (connections st) st (exec (connect_connection i) st) /\
  connections (exec (connect_connection i) st) = connections st.
Proof.
  destruct (stopped_fields st) as (_ & _ & S3 & _).
  unfold exec, connect_connection, connect_stop_other, connect_start, getitem.
  run_m.
  destruct (bool_decide (active_connection_index st <> None)
            && bool_decide (active_connection_index st <> Some i)); cbn.
  - rewrite stop_chisel_process_eq. cbn.
    case_bool_decide; cbn;
      [|rewrite update_buttons_state_eq; cbn; split; [adds_by trace_adds_stopped|done]].
    destruct (py_index _ i) as [conn|] eqn:Hi; cbn;
      [|split; [adds_by trace_adds_stopped|done]].
    rewrite S3 in Hi. apply py_index_elem in Hi.
    rewrite start_chisel_eq. cbn. rewrite update_buttons_state_eq. cbn.
    split.
    + apply trace_adds_trans with (stopped st); [apply trace_adds_stopped|].
      eapply trace_adds_eq;
        [|apply (trace_adds_started (connections st) conn
                   (set_active_connection_index (Some i)
                      (set_active_connection_index None (stopped st))) Hi)].
      done.
    + by rewrite connections_started.
  - case_bool_decide; cbn;
      [|rewrite update_buttons_state_eq; split; [by apply trace_adds_same|done]].
    destruct (py_index _ i) as [conn|] eqn:Hi; cbn;
      [|split; [by apply trace_adds_same|done]].
    apply py_index_elem in Hi.
    rewrite start_chisel_eq. cbn. rewrite update_buttons_state_eq. cbn.
    split.
    + eapply trace_adds_eq;
        [|apply (trace_adds_started (connections st) conn
                   (set_active_connection_index (Some i) st) Hi)].
      done.
    + by rewrite connections_started.
Qed.

(** No other command starts anything. *)
Lemma trace_adds_other c st :
  (forall i, c <> Connect i) -> trace_adds [] st (exec (run c) st).
Proof.
  intros Hc. destruct c as [i|i|i|r|i r|]; unfold run.
  - by destruct (Hc i).
  - unfold exec, disconnect_connection. run_m.
    case_bool_decide; cbn; [|apply trace_adds_refl].
    rewrite stop_chisel_process_eq. cbn. rewrite update_buttons_state_eq. cbn.
    adds_by trace_adds_stopped.
  - destruct (refreshed_or_same_delete i st) as [->|[conns ->]];
      [apply trace_adds_refl|apply trace_adds_refreshed].
  - unfold exec. rewrite add_connection_dialog_eq. cbn [snd].
    destruct r; [apply trace_adds_refreshed|apply trace_adds_refl].
  - unfold exec, open_connection_settings, getitem. run_m.
    destruct (py_index (connections st) i); cbn; [|apply trace_adds_refl].
    destruct r; cbn.
    + rewrite save_all_eq. cbn. rewrite render_connections_eq.
      apply (trace_adds_refreshed _ _ st).
    + rewrite delete_connection_eq. cbn.
      case_bool_decide; [apply trace_adds_refreshed|apply trace_adds_refl].
    + apply trace_adds_refl.
  - destruct (tick_only_polls st) as (_ & _ & _ & _ & polls & Ht & Hp).
    exists polls. split; [done|]. eapply Forall_impl; [exact Hp|].
    by intros e (p & b & ->).
Qed.

(** What one step adds to the trace: a [Popen] only of a connection that
    is in the list before the step and after it. *)
Lemma step_adds st st' :
  step st st' ->
  exists new,
    trace st' = trace st ++ new /\
    forall cmd child, In (EPopen cmd child) new ->
      exists conn,
        conn ∈ connections st /\ conn ∈ connections st' /\
        cmd = [py "chisel"; py "client"; url conn] ++ Str.split (arguments conn).
Proof.
  intros [c st0 _|p st0|ok st0].
  - destruct c as [i|i|i|r|i r|].
    1: { destruct (trace_adds_connect i st0) as [(new & Ht & Hnew) Hc].
         exists new. split; [done|]. intros cmd child Hin.
         rewrite Forall_forall in Hnew.
         destruct (Hnew (EPopen cmd child)) as (conn & Hconn & ->);
           [by apply list_elem_of_In|].
         exists conn. unfold run. by rewrite Hc. }
    all: match goal with |- context [run ?c] =>
           destruct (trace_adds_other c st0) as (new & Ht & Hnew); [done|] end;
         exists new; (split; [done|]); intros cmd child Hin;
         rewrite Forall_forall in Hnew;
         destruct (Hnew (EPopen cmd child)) as (conn & Hconn & _);
           [by apply list_elem_of_In|]; by apply elem_of_nil in Hconn.
  - exists []. split; [by rewrite app_nil_r|]. by intros ? ? [].
  - exists []. split; [by rewrite app_nil_r|]. by intros ? ? [].
Qed.

Lemma history_reachable st past : history (st :: past) -> reachable st.
Proof.
  intros H. remember (st :: past) as run eqn:E. revert st past E.
  induction H as [|st0 st1 past0 H IH Hstep]; intros st past E;
    injection E as <- <-.
  - apply reachable_init.
  - eapply reachable_step; [|exact Hstep]. by eapply IH.
Qed.

Lemma reachable_history st : reachable st -> exists past, history (st :: past).
Proof.
  induction 1 as [|st st' _ [past IH] Hstep].
  - exists []. apply history_init.
  - exists (st :: past). by apply history_step.
Qed.

(** X21.  Nothing but [chisel client] is ever started, and only for a
    connection of the window.  Each [Popen] a step adds to the trace was
    called with [chisel], [client], the url of a connection that is in the
    list before the step and after it, and the tokens of its arguments.  So
    in a run from a fresh window, each [Popen] of the trace is found in a
    state of that run whose list holds such a connection. *)
Theorem history_starts_only_chisel st past :
  (forall st', step st st' ->
   exists new,
     trace st' = trace st ++ new /\
     forall cmd child, In (EPopen cmd child) new ->
       exists conn,
         conn ∈ connections st /\ conn ∈ connections st' /\
         cmd = [py "chisel"; py "client"; url conn] ++ Str.split (arguments conn)) /\
  (history (st :: past) ->
   forall cmd child, In (EPopen cmd child) (trace st) ->
     exists st0 conn,
       In st0 (st :: past) /\ In (EPopen cmd child) (trace st0) /\
       conn ∈ connections st0 /\
       cmd = [py "chisel"; py "client"; url conn] ++ Str.split (arguments conn)).
Proof.
  split; [apply step_adds|].
  intros H. remember (st :: past) as run eqn:E. revert st past E.
  induction H as [conns settings cfg ok fs|st0 st1 past0 H IH Hstep];
    intros st past E; injection E as <- <-.
  - intros cmd child Hin. exfalso. revert Hin.
    unfold MainWindow_init, exec. rewrite render_connections_eq. by cbn.
  - intros cmd child Hin.
    destruct (step_adds st0 st1 Hstep) as (new & Ht & Hnew).
    rewrite Ht in Hin. apply in_app_or in Hin as [Hold|Hin].
    + destruct (IH st0 past0 eq_refl cmd child Hold) as (st' & conn & H1 & H2 & H3 & H4).
      exists st', conn. split; [by right|done].
    + destruct (Hnew cmd child Hin) as (conn & _ & Hconn & Hcmd).
      exists st1, conn. split; [by left|]. split; [|done].
      rewrite Ht. apply in_or_app. by right.
Qed.

Lemma history_running_home : history [running_home; window0].
Proof.
  apply history_step; [apply history_init|].
  apply (step_command (Connect 0)). unfold clickable, row_exists.
  vm_compute. split; [discriminate|reflexivity].
Qed.

Lemma history_starts_only_chisel_witness :
  (exists new,
     trace (exec (run (Connect 1)) window0) = trace window0 ++ new /\
     forall cmd child, In (EPopen cmd child) new ->
       exists conn,
         conn ∈ connections window0 /\
         conn ∈ connections (exec (run (Connect 1)) window0) /\
         cmd = [py "chisel"; py "client"; url conn] ++ Str.split (arguments conn)) /\
  exists st0 conn,
    In st0 [running_home; window0] /\
    In (EPopen (chisel_cmd home) (Some 0%nat)) (trace st0) /\
    conn ∈ connections st0 /\
    chisel_cmd home
    = [py "chisel"; py "client"; url conn] ++ Str.split (arguments conn).
Proof.
  destruct (history_starts_only_chisel window0 []) as [Hstep _].
  destruct (history_starts_only_chisel running_home [window0]) as [_ Hrun].
  split.
  - apply Hstep. apply (step_command (Connect 1)). unfold clickable, row_exists.
    vm_compute. split; [discriminate|reflexivity].
  - apply Hrun; [apply history_running_home|]. vm_compute. left. reflexivity.
Defined.

(** *** Closing the window *)

(** X22.  The close event in a reachable state.  Answering Yes hides the
    window and Cancel keeps it, and neither changes anything.  Answering No
    accepts the event after stopping the process and saving: no process is
    left running, no handle is held, and the file holds the connections and
    settings. *)
Theorem closeEvent_stops_and_saves st :
  reachable st ->
  closeEvent Yes st = (Return HiddenToTray, st) /\
  closeEvent Cancel st = (Return Ignored, st) /\
  let st' := exec (closeEvent No) st in
  closeEvent No st = (Return Accepted, st') /\
  (forall p, procs st' !! p <> Some true) /\
  active_process st' = None /\
  connections st' = connections st /\
  files st' !! CONFIG_FILE = Some (dumps (saved_data st)).
Proof.
  intros Hreach. pose proof (reachable_inv st Hreach) as HI.
  split; [done|]. split; [done|]. intros st'.
  assert (closeEvent No st = (Return Accepted, saved (stopped st))) as Heq.
  { unfold closeEvent. run_m. rewrite stop_chisel_process_eq. cbn.
    by rewrite save_all_eq. }
  unfold st', exec. rewrite Heq. cbn [snd].
  destruct (stopped_fields st) as (S1 & S2 & S3 & S4 & S5 & S6).
  assert (settings_data (stopped st) = settings_data st) as S7.
  { unfold stopped. destruct (active_process st); [case_bool_decide|]; done. }
  unfold saved, saved_data. cbn. rewrite S3, S7.
  repeat split; try done.
  - intros p Hp. by apply (stopped_none_live st p HI).
  - apply lookup_insert_eq.
Qed.

Lemma closeEvent_stops_and_saves_witness :
  let st' := exec (closeEvent No) running_home in
  closeEvent No running_home = (Return Accepted, st') /\
  (forall p, procs st' !! p <> Some true) /\
  active_process st' = None /\
  connections st' = connections running_home /\
  files st' !! CONFIG_FILE = Some (dumps (saved_data running_home)).
Proof.
  apply (closeEvent_stops_and_saves running_home running_home_reachable).
Defined.
